(** * sails-model-builder: attribute store and lifecycle dispatcher

    A shallow embedding of the two drafts of the builder that the
    repository carries,

      - [src/sails-model-builder.js]  (module [SailsModelBuilder] below),
      - [src/unnamed/part_001]        (module [Part001] below),

    over a small model of the JavaScript object heap, of the lodash
    helpers the builder calls and of the mayordomo event manager.

    Scope of the heap model.  An object is its kind (plain object, array,
    function) and its own enumerable properties in insertion order.
    Members that the engine defines or that are inherited from a prototype
    ([toString], a function's [name] and [length], an array's [length] and
    indices) are outside the model: an access that would need them yields
    the outcome [Err Unmodelled], never a made-up value.  Engines list the
    keys that look like array indices before the others; the model keeps
    plain insertion order, and no statement below depends on the position
    of such a key. *)

From Stdlib Require Import ZArith String List Bool Lia.
From stdpp Require Import base list strings pretty.
Import ListNotations.

Local Open Scope string_scope.
Local Open Scope list_scope.

(* ===================================================================== *)
(** ** JavaScript values and the object heap                              *)
(* ===================================================================== *)

Module Js.

(** Heap locations. *)
Abbreviation loc := nat.

(** Primitive values and references to heap objects. *)
Inductive Value :=
| VUndefined
| VNull
| VBool (b : bool)
| VNum (n : Z)
| VStr (s : string)
| VRef (l : loc).

(** What a function object does when it is called.  The builder creates
    two kinds of functions itself; every other function is opaque. *)
Inductive FunBody :=
| External (id : nat)              (* a function of the caller or of the framework *)
| UuidV4                           (* function () { return uuid.v4(); } *)
| LifecycleCallback (lc : string). (* the function setupLifecycleEvents installs *)

Inductive Kind :=
| KObject
| KArray (elems : list Value)
| KFunction (body : FunBody).

Record Obj := mkObj { kind : Kind; props : list (string * Value) }.

(** The heap: a new object takes the next free location. *)
Abbreviation Heap := (list Obj).

(** ToBoolean. *)
Definition truthy (v : Value) : bool :=
  match v with
  | VUndefined | VNull => false
  | VBool b => b
  | VNum n => negb (n =? 0)%Z
  | VStr s => negb (s =? "")%string
  | VRef _ => true
  end.

(** Own properties: lookup, and assignment that keeps the position of an
    existing key and appends a new one. *)
Fixpoint getP (k : string) (ps : list (string * Value)) : option Value :=
  match ps with
  | [] => None
  | (k', v) :: r => if (k' =? k)%string then Some v else getP k r
  end.

Fixpoint setP (k : string) (v : Value) (ps : list (string * Value))
  : list (string * Value) :=
  match ps with
  | [] => [(k, v)]
  | (k', v') :: r =>
      if (k' =? k)%string then (k, v) :: r else (k', v') :: setP k v r
  end.

(** [o[k]] on an object: the value, or [undefined] when absent. *)
Definition readP (k : string) (o : Obj) : Value :=
  match getP k (props o) with Some v => v | None => VUndefined end.

Definition writeP (k : string) (v : Value) (o : Obj) : Obj :=
  mkObj (kind o) (setP k v (props o)).

Definition isArrayKind (k : Kind) : bool :=
  match k with KArray _ => true | _ => false end.

Definition isFunctionKind (k : Kind) : bool :=
  match k with KFunction _ => true | _ => false end.

(** The i-th actual argument of a call; [undefined] when not passed. *)
Definition arg (i : nat) (args : list Value) : Value := nth i args VUndefined.

(** Object literals. *)
Definition object (ps : list (string * Value)) : Obj := mkObj KObject ps.
Definition array (vs : list Value) : Obj := mkObj (KArray vs) [].
Definition function (b : FunBody) : Obj := mkObj (KFunction b) [].

End Js.
Export Js.

#[global] Instance Value_eq_dec : EqDecision Value.
Proof. solve_decision. Defined.
#[global] Instance FunBody_eq_dec : EqDecision FunBody.
Proof. solve_decision. Defined.
#[global] Instance Kind_eq_dec : EqDecision Kind.
Proof. solve_decision. Defined.
#[global] Instance Obj_eq_dec : EqDecision Obj.
Proof. solve_decision. Defined.

(* ===================================================================== *)
(** ** The lifecycle protocol: handlers, continuation, event manager      *)
(* ===================================================================== *)

Module Protocol.

(** What a subscribed handler does with the three arguments it receives,
    [(instance, cb, adopt)], as far as the dispatcher can observe it: it
    calls [adopt()], it calls [cb(args...)], or it starts asynchronous work
    ([Defer]) whose callback runs after the lifecycle function has
    returned and may use the same two functions. *)
Inductive Script :=
| Return
| CallAdopt (k : Script)
| CallCb (args : list Value) (k : Script)
| Defer (task : Script) (k : Script).

Record Handler := mkHandler { handlerId : nat; handlerBody : Value -> Script }.

(** Observable events of one invocation of a lifecycle function. *)
Inductive Event :=
| Ran (h : nat)                   (* handler [h] was invoked *)
| Continued (args : list Value).  (* the framework's continuation was invoked *)

(** The activation of one lifecycle function: its local variable
    [orphanCallback] ([undefined] until assigned, as a hoisted [var]), the
    events so far, and the asynchronous tasks waiting for the event loop. *)
Record Frame := mkFrame {
  orphanCallback : Value;
  log : list Event;
  deferred : list Script
}.

Definition entry : Frame := mkFrame VUndefined [] [].

(** The continuation [cb] supplied by the framework: an opaque function,
    each call of which is recorded with its actual arguments. *)
Definition cb (args : list Value) (f : Frame) : Frame :=
  mkFrame (orphanCallback f) (log f ++ [Continued args]) (deferred f).

(** The body of a handler, run with the callbacks it was handed. *)
Fixpoint exec (cbArg : list Value -> Frame -> Frame) (adoptArg : Frame -> Frame)
  (s : Script) (f : Frame) : Frame :=
  match s with
  | Return => f
  | CallAdopt k => exec cbArg adoptArg k (adoptArg f)
  | CallCb args k => exec cbArg adoptArg k (cbArg args f)
  | Defer task k =>
      exec cbArg adoptArg k
        (mkFrame (orphanCallback f) (log f) (deferred f ++ [task]))
  end.

Definition invoke (cbArg : list Value -> Frame -> Frame) (adoptArg : Frame -> Frame)
  (instance : Value) (h : Handler) (f : Frame) : Frame :=
  exec cbArg adoptArg (handlerBody h instance)
    (mkFrame (orphanCallback f) (log f ++ [Ran (handlerId h)]) (deferred f)).

(** One turn of the host event loop: the oldest waiting task runs. *)
Definition turn (cbArg : list Value -> Frame -> Frame) (adoptArg : Frame -> Frame)
  (f : Frame) : Frame :=
  match deferred f with
  | [] => f
  | task :: rest =>
      exec cbArg adoptArg task (mkFrame (orphanCallback f) (log f) rest)
  end.

(** Observations on a frame: the argument lists the continuation was
    invoked with, and the handlers that ran, both in order. *)
Fixpoint continuedWith (l : list Event) : list (list Value) :=
  match l with
  | [] => []
  | Continued args :: r => args :: continuedWith r
  | Ran _ :: r => continuedWith r
  end.

Fixpoint handlersRun (l : list Event) : list nat :=
  match l with
  | [] => []
  | Ran h :: r => h :: handlersRun r
  | Continued _ :: r => handlersRun r
  end.

(** Does the synchronous part of a script adopt the continuation, by
    [adopt()] or by calling [cb]? *)
Fixpoint adoptsNow (s : Script) : bool :=
  match s with
  | Return => false
  | CallAdopt _ => true
  | CallCb _ _ => true
  | Defer _ k => adoptsNow k
  end.

End Protocol.
Export Protocol.

Module Mayordomo.

(** Modelled from the spec: the mayordomo event manager, an external
    package whose source is not part of this repository.  The spec (4.2)
    gives it as an ordered list of handlers per event name: [on] appends,
    [any] tells whether an event has a handler, [trigger] invokes every
    handler of the event in subscription order, synchronously, with the
    argument array it is given. *)
Definition Registry := list (string * list Handler).

(** Modelled from the spec: a new event manager has no handler. *)
Definition empty : Registry := [].

(** Modelled from the spec: the handlers subscribed to an event, in
    subscription order. *)
Fixpoint handlersOf (name : string) (r : Registry) : list Handler :=
  match r with
  | [] => []
  | (n, hs) :: rest => if (n =? name)%string then hs else handlersOf name rest
  end.

(** Modelled from the spec: [on(name, handler)] subscribes a handler after
    those already subscribed. *)
Fixpoint on (name : string) (h : Handler) (r : Registry) : Registry :=
  match r with
  | [] => [(name, [h])]
  | (n, hs) :: rest =>
      if (n =? name)%string then (n, hs ++ [h]) :: rest
      else (n, hs) :: on name h rest
  end.

(** Modelled from the spec: [any(name)] tells whether the event has a
    handler. *)
Definition any (name : string) (r : Registry) : bool :=
  match handlersOf name r with [] => false | _ :: _ => true end.

(** Modelled from the spec: [trigger(name, args)] calls every handler of
    the event with the arguments, in subscription order, one after the
    other. *)
Definition trigger (name : string) (call : Handler -> Frame -> Frame)
  (r : Registry) (f : Frame) : Frame :=
  fold_left (fun acc h => call h acc) (handlersOf name r) f.

End Mayordomo.

(* ===================================================================== *)
(** ** Builder state and the monad of builder operations                  *)
(* ===================================================================== *)

Module Machine.

(** The state a builder instance closes over: the heap, the variable that
    holds the model under construction ([modelBuilder.currentModel] in
    sails-model-builder.js, [workingModel] in part_001) and the event
    manager created by [mayordomo.new()]. *)
Record State := mkState {
  heap : Heap;
  currentModel : Value;
  events : Mayordomo.Registry
}.

Inductive Error :=
| TypeError    (* the exception JavaScript throws *)
| Unmodelled.  (* the run leaves the scope of the heap model *)

Inductive Outcome (A : Type) :=
| Ok (a : A) (s : State)
| Err (e : Error).
Arguments Ok {A} a s.
Arguments Err {A} e.

Definition M (A : Type) := State -> Outcome A.

Definition ret {A} (a : A) : M A := fun s => Ok a s.

Definition bind {A B} (m : M A) (k : A -> M B) : M B :=
  fun s => match m s with
           | Ok a s' => k a s'
           | Err e => Err e
           end.

Definition throw {A} (e : Error) : M A := fun _ => Err e.

Notation "x <- m ;; k" := (bind m (fun x => k))
  (at level 20, m at level 99, k at level 200, right associativity).
Notation "m ;; k" := (bind m (fun _ => k))
  (at level 100, k at level 200, right associativity).

(** Sequential iteration, as a loop over a JavaScript array. *)
Fixpoint forEach {A} (f : A -> M unit) (l : list A) : M unit :=
  match l with
  | [] => ret tt
  | x :: r => f x ;; forEach f r
  end.

(** A new object literal or function expression. *)
Definition alloc (o : Obj) : M Value :=
  fun s => Ok (VRef (length (heap s)))
              (mkState (heap s ++ [o]) (currentModel s) (events s)).

Definition readModel : M Value := fun s => Ok (currentModel s) s.

Definition writeModel (v : Value) : M unit :=
  fun s => Ok tt (mkState (heap s) v (events s)).

(** The object a reference points to. *)
Definition deref (l : loc) : M Obj :=
  fun s => match heap s !! l with
           | Some o => Ok o s
           | None => Err Unmodelled
           end.

(** [target.key]: the own property, or [undefined].  Arrays are only
    modelled as lists of elements, so a property of one is out of scope,
    and so are the members of primitive values. *)
Definition getProp (target : Value) (key : string) : M Value :=
  match target with
  | VUndefined | VNull => throw TypeError
  | VRef l =>
      o <- deref l ;;
      if isArrayKind (kind o) then throw Unmodelled else ret (readP key o)
  | _ => throw Unmodelled
  end.

(** [target.key = v] on an object or a function.  (On a primitive the
    assignment would be dropped without an error, the drafts not being
    strict; that case is out of scope like the reads above.) *)
Definition setProp (target : Value) (key : string) (v : Value) : M unit :=
  match target with
  | VUndefined | VNull => throw TypeError
  | VRef l =>
      o <- deref l ;;
      if isArrayKind (kind o) then throw Unmodelled
      else fun s => Ok tt (mkState (<[l := writeP key v o]> (heap s))
                                   (currentModel s) (events s))
  | _ => throw Unmodelled
  end.

(** A value used as a property key.  Only strings are modelled; the spec
    leaves other attribute names unspecified. *)
Definition toKey (v : Value) : M string :=
  match v with
  | VStr s => ret s
  | _ => throw Unmodelled
  end.

(** [target[key]] and [target[key] = v] with a computed key: the target is
    checked before the key is converted. *)
Definition getAt (target key : Value) : M Value :=
  match target with
  | VUndefined | VNull => throw TypeError
  | _ => k <- toKey key ;; getProp target k
  end.

Definition setAt (target key v : Value) : M unit :=
  match target with
  | VUndefined | VNull => throw TypeError
  | _ => k <- toKey key ;; setProp target k v
  end.

(** [v || {}]. *)
Definition orEmptyObject (v : Value) : M Value :=
  if truthy v then ret v else alloc (object []).

(** What a call hands back: [this] or a value for a builder method, the
    frame it leaves for a lifecycle function called by the framework. *)
Inductive Ret :=
| RThis
| RValue (v : Value)
| RFrame (f : Frame).

End Machine.
Export Machine.

(* ===================================================================== *)
(** ** The lodash helpers the builder calls                               *)
(* ===================================================================== *)

Module Lodash.

(** The drafts run on lodash 2 or 3 (they use [_.contains] and [_.pick]
    with a callback, both gone in lodash 4).  The two majors differ in one
    point the builder can reach: a string handed to [_.extend] as a source
    is skipped by lodash 2 and copied character by character, under the
    keys "0", "1", ..., by lodash 3. *)
Inductive Major := Lodash2 | Lodash3.

Definition isArray (v : Value) : M bool :=
  match v with
  | VRef l => o <- deref l ;; ret (isArrayKind (kind o))
  | _ => ret false
  end.

Definition isObject (v : Value) : bool :=
  match v with VRef _ => true | _ => false end.

Definition isFunction (v : Value) : M bool :=
  match v with
  | VRef l => o <- deref l ;; ret (isFunctionKind (kind o))
  | _ => ret false
  end.

(** The characters of a string under their indices. *)
Fixpoint indexed (i : nat) (s : string) : list (string * Value) :=
  match s with
  | EmptyString => []
  | String c r => (pretty i, VStr (String c EmptyString)) :: indexed (S i) r
  end.

(** The own enumerable properties [_.extend] copies from a source. *)
Definition sourceProps (lodash : Major) (source : Value) : M (list (string * Value)) :=
  match source with
  | VRef l =>
      o <- deref l ;;
      if isArrayKind (kind o) then throw Unmodelled else ret (props o)
  | VStr s =>
      match lodash with
      | Lodash2 => ret []
      | Lodash3 => ret (indexed 0 s)
      end
  | _ => ret []
  end.

Definition assignAll (ps : list (string * Value)) (o : Obj) : Obj :=
  fold_left (fun acc kv => writeP (fst kv) (snd kv) acc) ps o.

(** [_.extend(target, source)]: every own property of the source is
    assigned to the target.  The builder only passes targets of the form
    [x || {}]; a primitive target is out of scope. *)
Definition extend (lodash : Major) (target source : Value) : M unit :=
  match target with
  | VRef t =>
      ps <- sourceProps lodash source ;;
      o <- deref t ;;
      if isArrayKind (kind o) then throw Unmodelled
      else fun s => Ok tt (mkState (<[t := assignAll ps o]> (heap s))
                                   (currentModel s) (events s))
  | _ => throw Unmodelled
  end.

(** [_.keys(object)]: the names of the own enumerable properties. *)
Definition keys (lodash : Major) (v : Value) : M (list string) :=
  ps <- sourceProps lodash v ;; ret (map fst ps).

(** [_.each(collection, callback)] on an array: the callback receives each
    element (the builder's callbacks ignore the index). *)
Definition eachElement (collection : Value) (f : Value -> M unit) : M unit :=
  match collection with
  | VRef l =>
      o <- deref l ;;
      match kind o with
      | KArray elems => forEach f elems
      | _ => throw Unmodelled
      end
  | _ => throw Unmodelled
  end.

(** [_.each(collection, callback)] on a plain object: the keys are fixed
    when the loop starts, each value is read when its turn comes, and the
    callback receives [(value, key)].  lodash walks an object with a numeric
    [length], and a function, by index: both are out of scope. *)
Definition eachOwn (collection : Value) (f : Value -> string -> M unit) : M unit :=
  match collection with
  | VRef l =>
      o <- deref l ;;
      match kind o, readP "length" o with
      | KObject, VNum _ => throw Unmodelled
      | KObject, _ =>
          forEach (fun k => v <- getProp collection k ;; f v k) (map fst (props o))
      | _, _ => throw Unmodelled
      end
  | _ => throw Unmodelled
  end.

(** [_.wrap(value, wrapper)]: a function that calls [wrapper] with [value]
    followed by its own arguments. *)
Definition wrap {F A R} (value : F) (wrapper : F -> list A -> R) : list A -> R :=
  fun args => wrapper value args.

End Lodash.

(* ===================================================================== *)
(** ** src/unnamed/part_001                                               *)
(* ===================================================================== *)

Module Part001.

Definition lifecycles : list string :=
  [ "beforeValidate"; "afterValidate"; "beforeCreate"; "afterCreate";
    "beforeUpdate"; "afterUpdate"; "beforeDestroy"; "afterDestroy" ].

(** *** The function installed under each lifecycle name (lines 45-77) *)

(** [var adopt = function () { orphanCallback = false; }] *)
Definition adopt (f : Frame) : Frame :=
  mkFrame (VBool false) (log f) (deferred f).

(** [var wrappedCb = _.wrap(cb, function (fx, message) { adopt(); fx(message); })] *)
Definition wrappedCb : list Value -> Frame -> Frame :=
  Lodash.wrap cb
    (fun fx arguments =>
       let message := arg 0 arguments in
       fun f => fx [message] (adopt f)).

(** [workingModel[lifecycleName] = function (instance, cb) { ... }] *)
Definition lifecycleCallback (eventManager : Mayordomo.Registry)
  (lifecycleName : string) (instance : Value) : Frame :=
  if negb (Mayordomo.any lifecycleName eventManager) then
    cb [] entry
  else
    let f1 := mkFrame (VBool true) (log entry) (deferred entry) in
    let f2 := Mayordomo.trigger lifecycleName
                (invoke wrappedCb adopt instance) eventManager f1 in
    if truthy (orphanCallback f2) then cb [] f2 else f2.

(** *** The builder (lines 32-257) *)

Section Builder.
Context (lodash : Lodash.Major).

(** The callback of the loop of [setupLifecycleEvents] (lines 41-78): the
    assignment [workingModel[lifecycleName] = function (instance, cb) ...]. *)
Definition installCallback (lifecycleName : string) : M unit :=
  workingModel <- readModel ;;
  fn <- alloc (function (LifecycleCallback lifecycleName)) ;;
  setProp workingModel lifecycleName fn.

(** [function setupLifecycleEvents ()] *)
Definition setupLifecycleEvents : M unit :=
  forEach installCallback lifecycles.

(** [module.exports = function () { ... }]: the event manager is created
    and [var workingModel = { attributes: {} }]. *)
Definition newBuilder : M unit :=
  attributes <- alloc (object []) ;;
  workingModel <- alloc (object [("attributes", attributes)]) ;;
  writeModel workingModel.

(** [model: function (model)] *)
Definition model (arguments : list Value) : M Ret :=
  if (length arguments =? 0)%nat then
    workingModel <- readModel ;; ret (RValue workingModel)
  else
    writeModel (arg 0 arguments) ;;
    workingModel <- readModel ;;
    attributes <- getProp workingModel "attributes" ;;
    (if negb (truthy attributes) then
       empty <- alloc (object []) ;;
       setProp workingModel "attributes" empty
     else ret tt) ;;
    setupLifecycleEvents ;;
    ret RThis.

(** [uuidKey: function ()] *)
Definition uuidKey : M Ret :=
  workingModel <- readModel ;;
  attributes <- getProp workingModel "attributes" ;;
  defaultsTo <- alloc (function UuidV4) ;;
  id <- alloc (object [ ("type", VStr "string"); ("unique", VBool true);
                        ("primaryKey", VBool true); ("defaultsTo", defaultsTo) ]) ;;
  setProp attributes "id" id ;;
  ret RThis.

(** [intKey: function (autoIncrement)] *)
Definition intKey (arguments : list Value) : M Ret :=
  let autoIncrement := arg 0 arguments in
  workingModel <- readModel ;;
  attributes <- getProp workingModel "attributes" ;;
  id <- alloc (object [ ("type", VStr "integer"); ("unique", VBool true);
                        ("primaryKey", VBool true);
                        ("autoIncrement",
                          if decide (autoIncrement = VUndefined) then VBool true
                          else autoIncrement) ]) ;;
  setProp attributes "id" id ;;
  ret RThis.

(** The callback of the loop of overload #1 (lines 174-189). *)
Definition mergeAttribute (attribute : Value) (attributeName : string) : M unit :=
  workingModel <- readModel ;;
  attributes <- getProp workingModel "attributes" ;;
  stored <- getProp attributes attributeName ;;
  currentAttribute <- orEmptyObject stored ;;
  isFn <- Lodash.isFunction attribute ;;
  currentAttribute <-
    (if negb isFn then
       Lodash.extend lodash currentAttribute attribute ;; ret currentAttribute
     else ret attribute) ;;
  workingModel <- readModel ;;
  attributes <- getProp workingModel "attributes" ;;
  setProp attributes attributeName currentAttribute.

(** The callback of the loop of overload #3 (lines 223-233). *)
Definition shareProperties (sharedProperties : Value) (attributeName : Value) : M unit :=
  workingModel <- readModel ;;
  attributes <- getProp workingModel "attributes" ;;
  stored <- getAt attributes attributeName ;;
  currentAttribute <- orEmptyObject stored ;;
  Lodash.extend lodash currentAttribute sharedProperties ;;
  workingModel <- readModel ;;
  attributes <- getProp workingModel "attributes" ;;
  setAt attributes attributeName currentAttribute.

(** [attr: function (attributes, sharedProperties, value)] *)
Definition attr (arguments : list Value) : M Ret :=
  let attributes := arg 0 arguments in
  let sharedProperties := arg 1 arguments in
  let value := arg 2 arguments in
  isArr <- Lodash.isArray attributes ;;
  if negb isArr && Lodash.isObject attributes then
    Lodash.eachOwn attributes mergeAttribute ;;
    ret RThis
  else if (length arguments =? 3)%nat then
    let attributeName := arg 0 arguments in
    let propertyName := arg 1 arguments in
    workingModel <- readModel ;;
    attrs <- getProp workingModel "attributes" ;;
    stored <- getAt attrs attributeName ;;
    currentAttribute <- orEmptyObject stored ;;
    setAt currentAttribute propertyName value ;;
    workingModel <- readModel ;;
    attrs <- getProp workingModel "attributes" ;;
    setAt attrs attributeName currentAttribute ;;
    ret RThis
  else
    attributes <- (if isArr then ret attributes else alloc (array [attributes])) ;;
    Lodash.eachElement attributes (shareProperties sharedProperties) ;;
    ret RThis.

(** [require: function ()] *)
Definition require (arguments : list Value) : M Ret :=
  attributeNames <-
    (if (length arguments =? 0)%nat then
       workingModel <- readModel ;;
       attributes <- getProp workingModel "attributes" ;;
       names <- Lodash.keys lodash attributes ;;
       alloc (array (map VStr names))
     else
       isArr <- Lodash.isArray (arg 0 arguments) ;;
       if isArr then ret (arg 0 arguments) else alloc (array arguments)) ;;
  shared <- alloc (object [("required", VBool true)]) ;;
  attr [attributeNames; shared] ;;
  ret RThis.

(** [export: function (to)] *)
Definition export (arguments : list Value) : M Ret :=
  let to := arg 0 arguments in
  workingModel <- readModel ;;
  setProp to "exports" workingModel ;;
  ret RThis.

(** The framework calls the function stored under a lifecycle name of the
    current model with an instance and its continuation. *)
Definition fire (lifecycleName : string) (instance : Value) : M Ret :=
  workingModel <- readModel ;;
  fn <- getProp workingModel lifecycleName ;;
  match fn with
  | VRef l =>
      o <- deref l ;;
      match kind o with
      | KFunction (LifecycleCallback name) =>
          fun s => Ok (RFrame (lifecycleCallback (events s) name instance)) s
      | KFunction _ => throw Unmodelled
      | _ => throw TypeError
      end
  | _ => throw TypeError
  end.

End Builder.

(** [on], copied onto the builder from the event manager, which chains
    back to the builder. *)
Definition on (name : string) (handler : Handler) : M Ret :=
  fun s => Ok RThis (mkState (heap s) (currentModel s)
                             (Mayordomo.on name handler (events s))).

End Part001.

(* ===================================================================== *)
(** ** src/sails-model-builder.js                                         *)
(* ===================================================================== *)

Module SailsModelBuilder.

Definition lifeCycles : list string :=
  [ "beforeValidate"; "afterValidate"; "beforeCreate"; "afterCreate";
    "beforeUpdate"; "afterUpdate"; "beforeDestroy"; "afterDestroy" ].

(** *** The function installed under each lifecycle name (lines 122-144) *)

(** [var adopt = function(){ orphanCallback = false; }] *)
Definition adopt (f : Frame) : Frame :=
  mkFrame (VBool false) (log f) (deferred f).

(** [var wrappedCb = _.wrap(cb, function (fx, message) { adopt(); fx(message); })] *)
Definition wrappedCb : list Value -> Frame -> Frame :=
  Lodash.wrap cb
    (fun fx arguments =>
       let message := arg 0 arguments in
       fun f => fx [message] (adopt f)).

(** [modelBuilder.currentModel[lc] = function (instance, cb) { ... }] *)
Definition lifecycleCallback (mayordomo : Mayordomo.Registry)
  (lc : string) (instance : Value) : Frame :=
  if negb (Mayordomo.any lc mayordomo) then
    cb [] entry
  else
    let f1 := mkFrame (VBool true) (log entry) (deferred entry) in
    let f2 := Mayordomo.trigger lc (invoke wrappedCb adopt instance) mayordomo f1 in
    if truthy (orphanCallback f2) then cb [] f2 else f2.

(** *** The builder (lines 28-164) *)

Section Builder.
Context (lodash : Lodash.Major).

(** [module.exports = function () { ... }]: the event manager is created;
    [modelBuilder.currentModel] is not assigned until [create] runs. *)
Definition newBuilder : M unit := ret tt.

(** The callback of the loop of [setUpLifecycleEvents] (lines 121-145):
    the assignment [modelBuilder.currentModel[lc] = function (instance, cb) ...]. *)
Definition installCallback (lc : string) : M unit :=
  currentModel <- readModel ;;
  fn <- alloc (function (LifecycleCallback lc)) ;;
  setProp currentModel lc fn.

(** [setUpLifecycleEvents: function ()] *)
Definition setUpLifecycleEvents : M Ret :=
  forEach installCallback lifeCycles ;;
  ret RThis.

(** [create: function (model)] *)
Definition create (arguments : list Value) : M Ret :=
  let model := arg 0 arguments in
  model <- (if negb (truthy model) then alloc (object []) else ret model) ;;
  writeModel model ;;
  currentModel <- readModel ;;
  attributes <- getProp currentModel "attributes" ;;
  (if negb (truthy attributes) then
     currentModel <- readModel ;;
     empty <- alloc (object []) ;;
     setProp currentModel "attributes" empty
   else ret tt) ;;
  setUpLifecycleEvents ;;
  ret RThis.

(** [model: function ()] *)
Definition model (arguments : list Value) : M Ret :=
  currentModel <- readModel ;; ret (RValue currentModel).

(** [uuidKey: function ()] *)
Definition uuidKey : M Ret :=
  currentModel <- readModel ;;
  attributes <- getProp currentModel "attributes" ;;
  defaultsTo <- alloc (function UuidV4) ;;
  id <- alloc (object [ ("type", VStr "string"); ("unique", VBool true);
                        ("primaryKey", VBool true); ("defaultsTo", defaultsTo) ]) ;;
  setProp attributes "id" id ;;
  ret RThis.

(** [intKey: function (autoIncrement)] *)
Definition intKey (arguments : list Value) : M Ret :=
  let autoIncrement := arg 0 arguments in
  currentModel <- readModel ;;
  attributes <- getProp currentModel "attributes" ;;
  id <- alloc (object [ ("type", VStr "integer"); ("unique", VBool true);
                        ("primaryKey", VBool true);
                        ("autoIncrement",
                          if decide (autoIncrement = VUndefined) then VBool true
                          else autoIncrement) ]) ;;
  setProp attributes "id" id ;;
  ret RThis.

(** The callback of the first loop of [attr] (lines 88-98). *)
Definition mergeAttribute (attribute : Value) (attributeName : string) : M unit :=
  currentModel <- readModel ;;
  attributes <- getProp currentModel "attributes" ;;
  stored <- getProp attributes attributeName ;;
  currentAttribute <- orEmptyObject stored ;;
  isFn <- Lodash.isFunction attribute ;;
  currentAttribute <-
    (if negb isFn then
       Lodash.extend lodash currentAttribute attribute ;; ret currentAttribute
     else ret attribute) ;;
  currentModel <- readModel ;;
  attributes <- getProp currentModel "attributes" ;;
  setProp attributes attributeName currentAttribute.

(** The callback of the second loop of [attr] (lines 113-117). *)
Definition shareProperties (sharedProperties : Value) (attributeName : Value) : M unit :=
  currentModel <- readModel ;;
  attributes <- getProp currentModel "attributes" ;;
  stored <- getAt attributes attributeName ;;
  currentAttribute <- orEmptyObject stored ;;
  Lodash.extend lodash currentAttribute sharedProperties ;;
  currentModel <- readModel ;;
  attributes <- getProp currentModel "attributes" ;;
  setAt attributes attributeName currentAttribute.

(** [attr: function (attributes, sharedProperties, value)].  The branch for
    three arguments does not return: control goes on into the code below
    it, with the property name in the place of the shared properties. *)
Definition attr (arguments : list Value) : M Ret :=
  let attributes := arg 0 arguments in
  let sharedProperties := arg 1 arguments in
  let value := arg 2 arguments in
  isArr <- Lodash.isArray attributes ;;
  if negb isArr && Lodash.isObject attributes then
    Lodash.eachOwn attributes mergeAttribute ;;
    ret RThis
  else
    (if (length arguments =? 3)%nat then
       let attributeName := attributes in
       let propertyName := sharedProperties in
       currentModel <- readModel ;;
       attrs <- getProp currentModel "attributes" ;;
       stored <- getAt attrs attributeName ;;
       currentAttribute <- orEmptyObject stored ;;
       setAt currentAttribute propertyName value ;;
       currentModel <- readModel ;;
       attrs <- getProp currentModel "attributes" ;;
       setAt attrs attributeName currentAttribute
     else ret tt) ;;
    attributes <- (if isArr then ret attributes else alloc (array [attributes])) ;;
    Lodash.eachElement attributes (shareProperties sharedProperties) ;;
    ret RThis.

(** [require: function ()] *)
Definition require (arguments : list Value) : M Ret :=
  list <-
    (if (length arguments =? 0)%nat then
       currentModel <- readModel ;;
       attributes <- getProp currentModel "attributes" ;;
       names <- Lodash.keys lodash attributes ;;
       alloc (array (map VStr names))
     else
       isArr <- Lodash.isArray (arg 0 arguments) ;;
       if isArr then ret (arg 0 arguments) else alloc (array arguments)) ;;
  shared <- alloc (object [("required", VBool true)]) ;;
  attr [list; shared].

(** [export: function (to)] *)
Definition export (arguments : list Value) : M Ret :=
  let to := arg 0 arguments in
  currentModel <- readModel ;;
  setProp to "exports" currentModel ;;
  ret RThis.

(** The framework calls the function stored under a lifecycle name of the
    current model with an instance and its continuation. *)
Definition fire (lc : string) (instance : Value) : M Ret :=
  currentModel <- readModel ;;
  fn <- getProp currentModel lc ;;
  match fn with
  | VRef l =>
      o <- deref l ;;
      match kind o with
      | KFunction (LifecycleCallback name) =>
          fun s => Ok (RFrame (lifecycleCallback (events s) name instance)) s
      | KFunction _ => throw Unmodelled
      | _ => throw TypeError
      end
  | _ => throw TypeError
  end.

End Builder.

(** [on], copied onto the builder from the event manager, which chains
    back to the builder. *)
Definition on (name : string) (handler : Handler) : M Ret :=
  fun s => Ok RThis (mkState (heap s) (currentModel s)
                             (Mayordomo.on name handler (events s))).

End SailsModelBuilder.

(* ===================================================================== *)
(** ** The two drafts side by side                                        *)
(* ===================================================================== *)

Module Drafts.

(** The public operations of a builder, by role.  The setter of the model
    is [create] in sails-model-builder.js and [model] in part_001; [Fire]
    is the framework calling a lifecycle function of the current model. *)
Inductive Op :=
| SetModel (arguments : list Value)
| GetModel
| UuidKey
| IntKey (arguments : list Value)
| Require (arguments : list Value)
| Attr (arguments : list Value)
| Export (arguments : list Value)
| On (name : string) (handler : Handler)
| Fire (lifecycleName : string) (instance : Value).

Definition stepSailsModelBuilder (lodash : Lodash.Major) (op : Op) : M Ret :=
  match op with
  | SetModel arguments => SailsModelBuilder.create arguments
  | GetModel => SailsModelBuilder.model []
  | UuidKey => SailsModelBuilder.uuidKey
  | IntKey arguments => SailsModelBuilder.intKey arguments
  | Require arguments => SailsModelBuilder.require lodash arguments
  | Attr arguments => SailsModelBuilder.attr lodash arguments
  | Export arguments => SailsModelBuilder.export arguments
  | On name handler => SailsModelBuilder.on name handler
  | Fire lifecycleName instance => SailsModelBuilder.fire lifecycleName instance
  end.

Definition stepPart001 (lodash : Lodash.Major) (op : Op) : M Ret :=
  match op with
  | SetModel arguments => Part001.model arguments
  | GetModel => Part001.model []
  | UuidKey => Part001.uuidKey
  | IntKey arguments => Part001.intKey arguments
  | Require arguments => Part001.require lodash arguments
  | Attr arguments => Part001.attr lodash arguments
  | Export arguments => Part001.export arguments
  | On name handler => Part001.on name handler
  | Fire lifecycleName instance => Part001.fire lifecycleName instance
  end.

(** A chain of calls; the first exception ends it. *)
Fixpoint run (step : Op -> M Ret) (ops : list Op) : M (list Ret) :=
  match ops with
  | [] => ret []
  | op :: rest => r <- step op ;; rs <- run step rest ;; ret (r :: rs)
  end.

(** The state in which [require('sails-model-builder')()] leaves a builder
    of either draft, on a heap [h] of the caller's objects. *)
Definition blank (h : Heap) : State := mkState h VUndefined Mayordomo.empty.

Definition fromNew (newBuilder : M unit) (step : Op -> M Ret) (ops : list Op)
  (h : Heap) : Outcome (list Ret) :=
  (newBuilder ;; run step ops) (blank h).

Definition completes {A} (o : Outcome A) : bool :=
  match o with Ok _ _ => true | Err _ => false end.

(** The operations on which the drafts are meant to coincide: the setter
    given a descriptor, and every other operation except the call of [attr]
    with three arguments. *)
Definition common (op : Op) : bool :=
  match op with
  | SetModel arguments => truthy (arg 0 arguments)
  | Attr arguments => negb (length arguments =? 3)%nat
  | _ => true
  end.

End Drafts.

(* ===================================================================== *)
(** ** Expected behaviour of a synchronous handler pass                   *)
(* ===================================================================== *)

Module Pass.

(** The calls of the continuation a script makes before it returns, as the
    wrapped continuation forwards them: one argument each. *)
Fixpoint forwarded (s : Script) : list Event :=
  match s with
  | Return => []
  | CallAdopt k => forwarded k
  | CallCb args k => Continued [arg 0 args] :: forwarded k
  | Defer _ k => forwarded k
  end.

(** The asynchronous tasks a script starts before it returns. *)
Fixpoint started (s : Script) : list Script :=
  match s with
  | Return => []
  | CallAdopt k => started k
  | CallCb _ k => started k
  | Defer task k => task :: started k
  end.

(** The events of one pass over the handlers of a lifecycle. *)
Definition events (instance : Value) (hs : list Handler) : list Event :=
  flat_map (fun h => Ran (handlerId h) :: forwarded (handlerBody h instance)) hs.

Definition tasks (instance : Value) (hs : list Handler) : list Script :=
  flat_map (fun h => started (handlerBody h instance)) hs.

(** Did some handler adopt the continuation during the pass? *)
Definition adopted (instance : Value) (hs : list Handler) : bool :=
  existsb (fun h => adoptsNow (handlerBody h instance)) hs.

End Pass.

(** The lifecycle function of each draft with the two closures it hands
    to the handlers. *)
Record Dispatcher := mkDispatcher {
  callback : Mayordomo.Registry -> string -> Value -> Frame;
  wrapped : list Value -> Frame -> Frame;
  adopting : Frame -> Frame
}.

Definition dispatchers : list Dispatcher :=
  [ mkDispatcher Part001.lifecycleCallback Part001.wrappedCb Part001.adopt;
    mkDispatcher SailsModelBuilder.lifecycleCallback SailsModelBuilder.wrappedCb
      SailsModelBuilder.adopt ].


(* ===================================================================== *)
(** ** Reading the attribute store                                        *)
(* ===================================================================== *)

Module Store.

(** The builder holds a model: the current model is an object [m] whose
    [attributes] property refers to an object [a]. *)
Record holds (s : State) (m a : loc) (mo ao : Obj) : Prop := mkHolds {
  holds_current : currentModel s = VRef m;
  holds_model : heap s !! m = Some mo;
  holds_model_kind : isArrayKind (kind mo) = false;
  holds_attributes : readP "attributes" mo = VRef a;
  holds_store : heap s !! a = Some ao;
  holds_store_kind : isArrayKind (kind ao) = false
}.

(** The attribute mapping of the current model, if it has one. *)
Definition attributes (s : State) : option Obj :=
  match currentModel s with
  | VRef m =>
      match heap s !! m with
      | Some mo =>
          match readP "attributes" mo with
          | VRef a => heap s !! a
          | _ => None
          end
      | None => None
      end
  | _ => None
  end.

(** The value stored under an attribute name ([undefined] when absent). *)
Definition attribute (s : State) (name : string) : option Value :=
  match attributes s with
  | Some ao => Some (readP name ao)
  | None => None
  end.

(** The object a stored attribute refers to: its descriptor. *)
Definition descriptor (s : State) (name : string) : option Obj :=
  match attribute s name with
  | Some (VRef d) => heap s !! d
  | _ => None
  end.

(** A property of the current model itself. *)
Definition modelProperty (s : State) (key : string) : option Value :=
  match currentModel s with
  | VRef m =>
      match heap s !! m with
      | Some mo => Some (readP key mo)
      | None => None
      end
  | _ => None
  end.

(** No attribute refers to the model or to the attribute mapping itself,
    and every attribute that is set refers to an object. *)
Definition tidy (h : Heap) (m a : loc) (ao : Obj) : Prop :=
  forall name v, getP name (props ao) = Some v ->
    truthy v = false \/
    exists l o, v = VRef l /\ l <> m /\ l <> a /\ h !! l = Some o /\
                isArrayKind (kind o) = false.

(** The strings of a list of values, if they all are strings. *)
Fixpoint strings (vs : list Value) : option (list string) :=
  match vs with
  | [] => Some []
  | VStr x :: rest =>
      match strings rest with
      | Some xs => Some (x :: xs)
      | None => None
      end
  | _ :: _ => None
  end.

(** An argument that names attributes: a string, or an array of strings. *)
Definition names (h : Heap) (v : Value) : option (list string) :=
  match v with
  | VStr x => Some [x]
  | VRef l =>
      match h !! l with
      | Some o =>
          match kind o with
          | KArray elems => strings elems
          | _ => None
          end
      | None => None
      end
  | _ => None
  end.

(** The attributes [require] marks: all of them without arguments, those
    of the array when the first argument is one, the arguments otherwise. *)
Definition required (h : Heap) (ao : Obj) (arguments : list Value)
  : option (list string) :=
  match arguments with
  | [] => Some (map fst (props ao))
  | VRef l :: _ => names h (VRef l)
  | _ => strings arguments
  end.

(** A value this model accepts as the source of a merge: anything but an
    array or a dangling reference. *)
Definition mergeable (h : Heap) (v : Value) : Prop :=
  forall l, v = VRef l ->
    exists o, h !! l = Some o /\ isArrayKind (kind o) = false.

(** Every object of [h] is still there in [h'], with its kind. *)
Definition preserved (h h' : Heap) : Prop :=
  forall l o, h !! l = Some o -> exists o', h' !! l = Some o' /\ kind o' = kind o.

(** A tidy store that holds under [name] the function object [f], whose
    body is [body]. *)
Definition keepsFunction (s : State) (m a : loc) (name : string) (f : loc)
  (body : FunBody) : Prop :=
  exists mo ao fo,
    holds s m a mo ao /\ tidy (heap s) m a ao /\
    readP name ao = VRef f /\ heap s !! f = Some fo /\ kind fo = KFunction body.

(** The effect of a key helper that installs the new object [d] with the
    properties [ps] under "id", in a store whose mapping is the object [a]:
    the "id" attribute refers to [d], an object that did not exist before
    and has exactly the properties [ps]; every other attribute and every
    object other than the mapping, the previous "id" descriptor included,
    is as it was. *)
Definition keyInstalled (s s' : State) (a d : loc) (ps : list (string * Value)) : Prop :=
  currentModel s' = currentModel s
  /\ events s' = events s
  /\ attribute s' "id" = Some (VRef d)
  /\ (length (heap s) <= d)%nat
  /\ heap s' !! d = Some (object ps)
  /\ (forall name, name <> "id" -> attribute s' name = attribute s name)
  /\ (forall l o, l <> a -> heap s !! l = Some o -> heap s' !! l = Some o).

(** The model object after the lifecycle functions created at locations
    [n], [n + 1], ... have been stored under the names [lcs]. *)
Fixpoint wire (n : nat) (lcs : list string) (o : Obj) : Obj :=
  match lcs with
  | [] => o
  | lc :: rest => wire (S n) rest (writeP lc (VRef n) o)
  end.

Definition callbacks (lcs : list string) : list Obj :=
  map (fun lc => function (LifecycleCallback lc)) lcs.

End Store.

(** The attribute operations of a draft, for a given lodash. *)
Record Builder := mkBuilder {
  setModel : list Value -> M Ret;
  uuidKey : M Ret;
  intKey : list Value -> M Ret;
  require : list Value -> M Ret;
  attr : list Value -> M Ret
}.

Definition part001 (lodash : Lodash.Major) : Builder :=
  mkBuilder Part001.model Part001.uuidKey Part001.intKey
            (Part001.require lodash) (Part001.attr lodash).

Definition sailsModelBuilder (lodash : Lodash.Major) : Builder :=
  mkBuilder SailsModelBuilder.create SailsModelBuilder.uuidKey
            SailsModelBuilder.intKey
            (SailsModelBuilder.require lodash) (SailsModelBuilder.attr lodash).

Definition drafts (lodash : Lodash.Major) : list Builder :=
  [ part001 lodash; sailsModelBuilder lodash ].

(* ===================================================================== *)
(** ** The event loop over several turns                                  *)
(* ===================================================================== *)

Module Loop.

(** [n] turns of the host event loop, one waiting task each. *)
Fixpoint turns (n : nat) (cbArg : list Value -> Frame -> Frame)
  (adoptArg : Frame -> Frame) (f : Frame) : Frame :=
  match n with
  | O => f
  | S k => turns k cbArg adoptArg (turn cbArg adoptArg f)
  end.

(** A handler that adopts the continuation and calls it, with the given
    arguments, from asynchronous work. *)
Definition adopter (id : nat) (args : list Value) : Handler :=
  mkHandler id (fun _ => CallAdopt (Defer (CallCb args Return) Return)).

(** A script that never calls the continuation, neither before it returns
    nor from the asynchronous work it starts. *)
Fixpoint silent (s : Script) : bool :=
  match s with
  | Return => true
  | CallAdopt k => silent k
  | CallCb _ _ => false
  | Defer task k => silent task && silent k
  end.

End Loop.

(* ===================================================================== *)
(** ** Event-manager members copied onto the builder                      *)
(* ===================================================================== *)

Module Wiring.

(** [_.flatten] on an array whose elements are strings or arrays of
    strings. *)
Inductive Item :=
| One (s : string)
| Many (l : list string).

Definition flatten (items : list Item) : list string :=
  flat_map (fun i => match i with One s => [s] | Many l => l end) items.

(** [_.contains(array, key)]. *)
Definition contains (array : list string) (key : string) : bool :=
  existsb (fun x => (x =? key)%string) array.

(** [_.pick(object, callback)]: a new object with the properties for which
    the callback, called with [(value, key)], answers true.  [props] of the
    object picked from stands for the enumerable properties [_.pick] goes
    through. *)
Definition pick (o : Obj) (callback : Value -> string -> bool) : Obj :=
  object (List.filter (fun kv => callback (snd kv) (fst kv)) (props o)).

(** part_001, line 30: [_.flatten(['on', 'off', 'trigger', lifecycles])]. *)
Definition mayordomoEvents : list string :=
  flatten [One "on"; One "off"; One "trigger"; Many Part001.lifecycles].

(** sails-model-builder.js, line 26. *)
Definition mayordomoEventsSails : list string :=
  flatten [One "on"; One "off"; One "trigger"; Many SailsModelBuilder.lifeCycles].

(** The keys of the object literal [modelBuilder] of part_001 (lines
    92-243) and of sails-model-builder.js (lines 34-152). *)
Definition methods : list string :=
  ["model"; "uuidKey"; "intKey"; "require"; "attr"; "export"].

Definition methodsSails : list string :=
  ["create"; "model"; "uuidKey"; "intKey"; "require"; "attr";
   "setUpLifecycleEvents"; "export"].

(** part_001, lines 246-248:
    [_.extend(modelBuilder, _.pick(eventManager, function (value, key) {
       return _.contains(mayordomoEvents, key); }))]. *)
Definition expose (modelBuilder eventManager : Obj) : Obj :=
  Lodash.assignAll
    (props (pick eventManager (fun value key => contains mayordomoEvents key)))
    modelBuilder.

(** sails-model-builder.js, lines 155-158, the same statement, followed by
    [modelBuilder.declareEvent = mayordomo.declare]. *)
Definition exposeSails (modelBuilder mayordomo : Obj) : Obj :=
  writeP "declareEvent" (readP "declare" mayordomo)
    (Lodash.assignAll
       (props (pick mayordomo (fun value key => contains mayordomoEventsSails key)))
       modelBuilder).

End Wiring.

(* ===================================================================== *)
(** ** States of the loop of overload #3                                  *)
(* ===================================================================== *)

Module Marking.

Section Reached.
Context (lodash : Lodash.Major) (shared : Value) (ps : list (string * Value)).
Context (m a : loc) (mo ao0 : Obj) (h0 : Heap).

(** What is true of the state [s], whose attribute mapping is [ao], once
    the loop that started on the heap [h0] with the mapping [ao0] has
    handled the names [done]:
    - the store holds its model and is tidy;
    - the source of the merge still reads [ps], and no attribute refers to
      it;
    - every object of [h0] but the mapping is still there, with its kind
      and with every property that [ps] does not name;
    - an attribute that was set keeps its value, and so does an attribute
      that was not handled;
    - every name handled refers to an object that has the properties [ps]. *)
Record reached (done : list string) (s : State) (ao : Obj) : Prop := mkReached {
  r_holds : Store.holds s m a mo ao;
  r_tidy : Store.tidy (heap s) m a ao;
  r_source : Lodash.sourceProps lodash shared s = Ok ps s;
  r_apart : forall sh, shared = VRef sh ->
              sh <> a /\ sh < length h0 /\
              forall y, getP y (props ao) <> Some (VRef sh);
  r_grow : length h0 <= length (heap s);
  r_frame : forall l o0, l <> a -> h0 !! l = Some o0 ->
              exists o, heap s !! l = Some o /\ kind o = kind o0 /\
                        forall k, getP k (rev ps) = None ->
                                  getP k (props o) = getP k (props o0);
  r_kept : forall y, truthy (readP y ao0) = true -> readP y ao = readP y ao0;
  r_others : forall y, ~ In y done -> readP y ao = readP y ao0;
  r_done : forall x, In x done ->
             exists d o, readP x ao = VRef d /\ heap s !! d = Some o /\
                         forall k v, getP k (rev ps) = Some v ->
                                     getP k (props o) = Some v
}.

End Reached.

End Marking.

(* ===================================================================== *)
(** ** Operations of both drafts, paired for statements about chains      *)
(* ===================================================================== *)

(** [export] of each draft with its [uuidKey]. *)
Definition exporters : list ((list Value -> M Ret) * M Ret) :=
  [ (Part001.export, Part001.uuidKey);
    (SailsModelBuilder.export, SailsModelBuilder.uuidKey) ].

(* ===================================================================== *)
(** * Auxiliary facts: properties, heap cells, monadic steps              *)
(* ===================================================================== *)

Section Properties.

Lemma getP_setP_eq k v ps : getP k (setP k v ps) = Some v.
Proof.
  induction ps as [ | [k' v'] r IH ]; simpl.
  - by rewrite String.eqb_refl.
  - destruct (k' =? k)%string eqn:E; simpl.
    + by rewrite String.eqb_refl.
    + by rewrite E.
Qed.

Lemma getP_setP_ne k k' v ps : k <> k' -> getP k' (setP k v ps) = getP k' ps.
Proof.
  intros Hne. induction ps as [ | [k0 v0] r IH ]; simpl.
  - destruct (k =? k')%string eqn:E; [ | done ].
    apply String.eqb_eq in E. contradiction.
  - destruct (k0 =? k)%string eqn:E; simpl.
    + apply String.eqb_eq in E. subst k0.
      destruct (k =? k')%string eqn:E'; [ | done ].
      apply String.eqb_eq in E'. contradiction.
    + by rewrite IH.
Qed.

Lemma setP_id k v ps : getP k ps = Some v -> setP k v ps = ps.
Proof.
  induction ps as [ | [k0 v0] r IH ]; simpl; [ done | ].
  destruct (k0 =? k)%string eqn:E.
  - apply String.eqb_eq in E. subst k0. by intros [= ->].
  - intros H. by rewrite IH.
Qed.

Lemma readP_writeP_eq k v o : readP k (writeP k v o) = v.
Proof. unfold readP, writeP. simpl. by rewrite getP_setP_eq. Qed.

Lemma readP_writeP_ne k k' v o : k <> k' -> readP k' (writeP k v o) = readP k' o.
Proof. intros H. unfold readP, writeP. simpl. by rewrite getP_setP_ne. Qed.

Lemma writeP_id k v o : getP k (props o) = Some v -> writeP k v o = o.
Proof. intros H. unfold writeP. rewrite (setP_id _ _ _ H). by destruct o. Qed.

Lemma kind_assignAll ps o : kind (Lodash.assignAll ps o) = kind o.
Proof.
  unfold Lodash.assignAll. revert o.
  induction ps as [ | [k v] r IH ]; intros o; simpl; [ done | ].
  by rewrite IH.
Qed.

Lemma getP_setP k k' v ps :
  getP k' (setP k v ps) = if (k =? k')%string then Some v else getP k' ps.
Proof.
  destruct (k =? k')%string eqn:E.
  - apply String.eqb_eq in E. subst. apply getP_setP_eq.
  - apply String.eqb_neq in E. by apply getP_setP_ne.
Qed.

(** [_.extend] is a shallow merge: a key of the source takes the source's
    value (the last one, should the list repeat a key), any other key keeps
    the target's value. *)
Lemma getP_assignAll k ps o :
  getP k (props (Lodash.assignAll ps o)) =
  match getP k (rev ps) with
  | Some v => Some v
  | None => getP k (props o)
  end.
Proof.
  unfold Lodash.assignAll. revert o.
  induction ps as [ | [k0 v0] r IH ]; intros o; simpl; [ done | ].
  rewrite IH. clear IH. simpl.
  assert (Happ : forall l1 l2, getP k (l1 ++ l2) =
            match getP k l1 with Some v => Some v | None => getP k l2 end).
  { induction l1 as [ | [a b] l1 IH1 ]; intros l2; simpl; [ done | ].
    destruct (a =? k)%string; [ done | apply IH1 ]. }
  rewrite Happ. destruct (getP k (rev r)); [ done | ].
  simpl. rewrite getP_setP. by destruct (k0 =? k)%string.
Qed.

End Properties.

Section Steps.

Lemma bind_ok {A B} (m : M A) (k : A -> M B) s a s' :
  m s = Ok a s' -> bind m k s = k a s'.
Proof. intros H. unfold bind. by rewrite H. Qed.

Lemma bind_err {A B} (m : M A) (k : A -> M B) s e :
  m s = Err e -> bind m k s = Err e.
Proof. intros H. unfold bind. by rewrite H. Qed.

Lemma bind_ext {A B} (m : M A) (k1 k2 : A -> M B) s :
  (forall a s', k1 a s' = k2 a s') -> bind m k1 s = bind m k2 s.
Proof. intros H. unfold bind. destruct (m s); [ apply H | reflexivity ]. Qed.

Lemma state_eta s : mkState (heap s) (currentModel s) (events s) = s.
Proof. by destruct s. Qed.

Lemma deref_ok s l o : heap s !! l = Some o -> deref l s = Ok o s.
Proof. intros H. unfold deref. by rewrite H. Qed.

Lemma getProp_ok s l o key :
  heap s !! l = Some o -> isArrayKind (kind o) = false ->
  getProp (VRef l) key s = Ok (readP key o) s.
Proof.
  intros H Hk. unfold getProp. rewrite (bind_ok _ _ _ _ _ (deref_ok _ _ _ H)).
  by rewrite Hk.
Qed.

Lemma setProp_ok s l o key v :
  heap s !! l = Some o -> isArrayKind (kind o) = false ->
  setProp (VRef l) key v s =
  Ok tt (mkState (<[l := writeP key v o]> (heap s)) (currentModel s) (events s)).
Proof.
  intros H Hk. unfold setProp. rewrite (bind_ok _ _ _ _ _ (deref_ok _ _ _ H)).
  by rewrite Hk.
Qed.

Lemma getAt_ok s l o key :
  heap s !! l = Some o -> isArrayKind (kind o) = false ->
  getAt (VRef l) (VStr key) s = Ok (readP key o) s.
Proof. intros H Hk. unfold getAt, toKey, bind, ret. by apply getProp_ok. Qed.

Lemma setAt_ok s l o key v :
  heap s !! l = Some o -> isArrayKind (kind o) = false ->
  setAt (VRef l) (VStr key) v s =
  Ok tt (mkState (<[l := writeP key v o]> (heap s)) (currentModel s) (events s)).
Proof. intros H Hk. unfold setAt, toKey, bind, ret. by apply setProp_ok. Qed.

Lemma isArray_ok s l o :
  heap s !! l = Some o -> Lodash.isArray (VRef l) s = Ok (isArrayKind (kind o)) s.
Proof.
  intros H. unfold Lodash.isArray. by rewrite (bind_ok _ _ _ _ _ (deref_ok _ _ _ H)).
Qed.

Lemma isFunction_ok s l o :
  heap s !! l = Some o -> Lodash.isFunction (VRef l) s = Ok (isFunctionKind (kind o)) s.
Proof.
  intros H. unfold Lodash.isFunction. by rewrite (bind_ok _ _ _ _ _ (deref_ok _ _ _ H)).
Qed.

Lemma sourceProps_ok lodash s l o :
  heap s !! l = Some o -> isArrayKind (kind o) = false ->
  Lodash.sourceProps lodash (VRef l) s = Ok (props o) s.
Proof.
  intros H Hk. unfold Lodash.sourceProps.
  rewrite (bind_ok _ _ _ _ _ (deref_ok _ _ _ H)). by rewrite Hk.
Qed.

Lemma extend_ok lodash s t o source ps :
  Lodash.sourceProps lodash source s = Ok ps s ->
  heap s !! t = Some o -> isArrayKind (kind o) = false ->
  Lodash.extend lodash (VRef t) source s =
  Ok tt (mkState (<[t := Lodash.assignAll ps o]> (heap s)) (currentModel s) (events s)).
Proof.
  intros Hs H Hk. unfold Lodash.extend. rewrite (bind_ok _ _ _ _ _ Hs).
  rewrite (bind_ok _ _ _ _ _ (deref_ok _ _ _ H)). by rewrite Hk.
Qed.

End Steps.
(* ===================================================================== *)
(** * Properties of the lifecycle dispatcher                              *)
(* ===================================================================== *)

Section Dispatcher.

Lemma wrappedCb_unfold (args : list Value) (f : Frame) :
  Part001.wrappedCb args f = cb [arg 0 args] (Part001.adopt f).
Proof. reflexivity. Qed.

Lemma dispatchers_alike (d : Dispatcher) :
  In d dispatchers ->
  d = mkDispatcher Part001.lifecycleCallback Part001.wrappedCb Part001.adopt.
Proof. intros [<- | [<- | []]]; reflexivity. Qed.

(** A handler body run with the wrapped continuation and [adopt]: the flag
    is cleared exactly when the body adopts, the log grows by the forwarded
    calls and the queue by the started tasks. *)
Lemma exec_wrapped (s : Script) (f : Frame) :
  exec Part001.wrappedCb Part001.adopt s f =
  mkFrame (if adoptsNow s then VBool false else orphanCallback f)
          (log f ++ Pass.forwarded s)
          (deferred f ++ Pass.started s).
Proof.
  revert f. induction s as [ | k IH | args k IH | task _ k IH ]; intros f; simpl.
  - rewrite !app_nil_r. by destruct f.
  - rewrite IH. simpl. by destruct (adoptsNow k).
  - rewrite IH. simpl. rewrite <- app_assoc. simpl. by destruct (adoptsNow k).
  - rewrite IH. simpl. by rewrite <- app_assoc.
Qed.

Lemma pass_wrapped (instance : Value) (hs : list Handler) (f : Frame) :
  fold_left (fun acc h => invoke Part001.wrappedCb Part001.adopt instance h acc) hs f =
  mkFrame (if Pass.adopted instance hs then VBool false else orphanCallback f)
          (log f ++ Pass.events instance hs)
          (deferred f ++ Pass.tasks instance hs).
Proof.
  revert f. induction hs as [ | h hs IH ]; intros f; simpl.
  - rewrite !app_nil_r. by destruct f.
  - rewrite IH. unfold invoke. rewrite exec_wrapped. simpl.
    rewrite <- !app_assoc. simpl.
    destruct (adoptsNow (handlerBody h instance)); simpl;
      by destruct (Pass.adopted instance hs).
Qed.

Lemma handlersRun_app (l1 l2 : list Event) :
  handlersRun (l1 ++ l2) = handlersRun l1 ++ handlersRun l2.
Proof.
  induction l1 as [ | [h | args] l1 IH ]; simpl; [done | by rewrite IH | done].
Qed.

Lemma handlersRun_forwarded (s : Script) : handlersRun (Pass.forwarded s) = [].
Proof. induction s; simpl; auto. Qed.

Lemma handlersRun_events (instance : Value) (hs : list Handler) :
  handlersRun (Pass.events instance hs) = map handlerId hs.
Proof.
  induction hs as [ | h hs IH ]; simpl; [done | ].
  rewrite handlersRun_app, handlersRun_forwarded, IH. done.
Qed.

(** The lifecycle function when the event has handlers. *)
Lemma callback_with_handlers (eventManager : Mayordomo.Registry)
  (lifecycleName : string) (instance : Value) :
  Mayordomo.handlersOf lifecycleName eventManager <> [] ->
  let hs := Mayordomo.handlersOf lifecycleName eventManager in
  Part001.lifecycleCallback eventManager lifecycleName instance =
  mkFrame (VBool (negb (Pass.adopted instance hs)))
          (Pass.events instance hs ++
             if Pass.adopted instance hs then [] else [Continued []])
          (Pass.tasks instance hs).
Proof.
  intros Hne hs. unfold Part001.lifecycleCallback, Mayordomo.any, Mayordomo.trigger.
  fold hs. destruct hs as [ | h t ] eqn:E; [done | ].
  cbn [negb]. rewrite pass_wrapped. cbn [orphanCallback log deferred entry app].
  destruct (Pass.adopted instance (h :: t)); cbn; [ by rewrite app_nil_r | done ].
Qed.

End Dispatcher.

(** C1.  For every lifecycle name with at least one subscribed handler,
    the lifecycle function of either draft runs every subscribed handler,
    in subscription order, and then invokes the continuation (without
    arguments) exactly when no handler adopted it during the pass, by
    [adopt()] or by calling the wrapped continuation.  In particular a
    single handler that does nothing yields exactly one invocation, at the
    end of the pass; and a single handler that calls [adopt()], starts
    asynchronous work and returns yields none during the pass, and exactly
    one once its asynchronous work calls the continuation. *)
Theorem C1_handlers_run_then_orphan_continues
  (d : Dispatcher)
  (eventManager : Mayordomo.Registry) (lifecycleName : string) (instance : Value) :
  In d dispatchers ->
  Mayordomo.handlersOf lifecycleName eventManager <> [] ->
  let hs := Mayordomo.handlersOf lifecycleName eventManager in
  let f := callback d eventManager lifecycleName instance in
  handlersRun (log f) = map handlerId hs
  /\ log f = Pass.events instance hs ++
             (if Pass.adopted instance hs then [] else [Continued []])
  /\ (forall h, hs = [h] -> handlerBody h instance = Return ->
        log f = [Ran (handlerId h); Continued []])
  /\ (forall h args, hs = [h] ->
        handlerBody h instance = CallAdopt (Defer (CallCb args Return) Return) ->
        let later := turn (wrapped d) (adopting d) f in
        continuedWith (log f) = []
        /\ continuedWith (log later) = [[arg 0 args]]
        /\ deferred later = []).
Proof.
  intros Hin Hne hs f. subst f. rewrite (dispatchers_alike d Hin). cbn [callback].
  rewrite (callback_with_handlers _ _ _ Hne). fold hs. cbn [log].
  split; [ | split; [ done | split ] ].
  - rewrite handlersRun_app, handlersRun_events.
    destruct (Pass.adopted instance hs); simpl; by rewrite app_nil_r.
  - intros h Hhs Hbody. rewrite Hhs. unfold Pass.events, Pass.adopted. simpl.
    rewrite Hbody. reflexivity.
  - intros h args Hhs Hbody. rewrite Hhs.
    unfold Pass.events, Pass.adopted, Pass.tasks, turn. simpl.
    rewrite Hbody. simpl. done.
Qed.

(** C1, at the example of the specification: one handler that adopts and
    calls the continuation from asynchronous work. *)
Lemma C1_witness :
  let h := mkHandler 7 (fun _ => CallAdopt (Defer (CallCb [VNull] Return) Return)) in
  let f := Part001.lifecycleCallback (Mayordomo.on "beforeCreate" h Mayordomo.empty)
             "beforeCreate" (VRef 0) in
  handlersRun (log f) = [7%nat] /\ log f = [Ran 7].
Proof.
  intros h f.
  destruct (C1_handlers_run_then_orphan_continues
              (mkDispatcher Part001.lifecycleCallback Part001.wrappedCb Part001.adopt)
              (Mayordomo.on "beforeCreate" h Mayordomo.empty) "beforeCreate" (VRef 0))
    as (H1 & H2 & _).
  - left. reflexivity.
  - simpl. discriminate.
  - split; [ exact H1 | exact H2 ].
Defined.

(** C2.  For every lifecycle name with no subscribed handler, the lifecycle
    function of either draft invokes the continuation exactly once, at once
    and without arguments; no handler runs and nothing is left waiting. *)
Theorem C2_no_handler_continues_at_once
  (d : Dispatcher)
  (eventManager : Mayordomo.Registry) (lifecycleName : string) (instance : Value) :
  In d dispatchers ->
  Mayordomo.handlersOf lifecycleName eventManager = [] ->
  let f := callback d eventManager lifecycleName instance in
  log f = [Continued []] /\ handlersRun (log f) = [] /\ deferred f = [].
Proof.
  intros Hin Hnone f. subst f. rewrite (dispatchers_alike d Hin). cbn [callback].
  unfold Part001.lifecycleCallback, Mayordomo.any. rewrite Hnone.
  simpl. done.
Qed.

Lemma C2_witness :
  log (SailsModelBuilder.lifecycleCallback Mayordomo.empty "afterUpdate" VNull)
  = [Continued []].
Proof.
  apply (C2_no_handler_continues_at_once
           (mkDispatcher SailsModelBuilder.lifecycleCallback
              SailsModelBuilder.wrappedCb SailsModelBuilder.adopt)
           Mayordomo.empty "afterUpdate" VNull).
  - right. left. reflexivity.
  - reflexivity.
Defined.

(** C3.  For every lifecycle name with one subscribed handler that calls
    the wrapped continuation during the pass without calling [adopt()]
    first, the continuation is invoked exactly once: the call through the
    wrapper clears [orphanCallback] before it forwards, and the lifecycle
    function does not invoke the continuation again after the pass. *)
Theorem C3_direct_call_continues_once
  (d : Dispatcher)
  (eventManager : Mayordomo.Registry) (lifecycleName : string) (instance : Value)
  (h : Handler) (args : list Value) :
  In d dispatchers ->
  Mayordomo.handlersOf lifecycleName eventManager = [h] ->
  handlerBody h instance = CallCb args Return ->
  let f := callback d eventManager lifecycleName instance in
  log f = [Ran (handlerId h); Continued [arg 0 args]]
  /\ length (continuedWith (log f)) = 1%nat
  /\ orphanCallback f = VBool false.
Proof.
  intros Hin Hhs Hbody f. subst f. rewrite (dispatchers_alike d Hin). cbn [callback].
  rewrite callback_with_handlers by (rewrite Hhs; discriminate).
  rewrite Hhs. unfold Pass.events, Pass.adopted. simpl. rewrite Hbody. simpl. done.
Qed.

Lemma C3_witness :
  let h := mkHandler 1 (fun _ => CallCb [] Return) in
  log (Part001.lifecycleCallback (Mayordomo.on "beforeDestroy" h Mayordomo.empty)
         "beforeDestroy" VNull)
  = [Ran 1; Continued [VUndefined]].
Proof.
  intros h.
  apply (C3_direct_call_continues_once
           (mkDispatcher Part001.lifecycleCallback Part001.wrappedCb Part001.adopt)
           (Mayordomo.on "beforeDestroy" h Mayordomo.empty) "beforeDestroy" VNull h []).
  - left. reflexivity.
  - reflexivity.
  - reflexivity.
Defined.

(** C4, as stated, fails: called with two arguments, the wrapped
    continuation hands only the first one to the continuation. *)
Lemma C4_counterexample :
  continuedWith (log (Part001.wrappedCb [VNum 1; VNum 2] entry)) = [[VNum 1]]
  /\ Part001.wrappedCb [VNum 1; VNum 2] entry
     <> cb [VNum 1; VNum 2] (Part001.adopt entry).
Proof. split; [ reflexivity | discriminate ]. Qed.

(** C4, amended.  For every argument list, the wrapped continuation of
    either draft first clears [orphanCallback] and then calls the
    continuation with exactly one argument, the first one it was given
    ([undefined] when it was given none); so a call with one argument is
    forwarded unchanged. *)
Theorem C4_wrapped_forwards_first_argument
  (d : Dispatcher) (args : list Value) (f : Frame) :
  In d dispatchers ->
  orphanCallback (adopting d f) = VBool false
  /\ wrapped d args f = cb [arg 0 args] (adopting d f)
  /\ (forall v, args = [v] -> wrapped d args f = cb args (adopting d f)).
Proof.
  intros Hin. rewrite (dispatchers_alike d Hin). cbn [wrapped adopting].
  split; [ reflexivity | split; [ reflexivity | ] ].
  intros v ->. reflexivity.
Qed.

Lemma C4_witness :
  SailsModelBuilder.wrappedCb [VStr "failed"; VNum 2] entry
  = cb [VStr "failed"] (SailsModelBuilder.adopt entry).
Proof.
  apply (C4_wrapped_forwards_first_argument
           (mkDispatcher SailsModelBuilder.lifecycleCallback
              SailsModelBuilder.wrappedCb SailsModelBuilder.adopt)
           [VStr "failed"; VNum 2] entry).
  right. left. reflexivity.
Defined.

(* ===================================================================== *)
(** * Properties of the attribute store                                   *)
(* ===================================================================== *)

Section Agreement.

(** Where the drafts have the same text they are the same function. *)
Lemma uuidKey_same : SailsModelBuilder.uuidKey = Part001.uuidKey.
Proof. reflexivity. Qed.

Lemma intKey_same : SailsModelBuilder.intKey = Part001.intKey.
Proof. reflexivity. Qed.

Lemma export_same : SailsModelBuilder.export = Part001.export.
Proof. reflexivity. Qed.

Lemma fire_same : SailsModelBuilder.fire = Part001.fire.
Proof. reflexivity. Qed.

Lemma on_same : SailsModelBuilder.on = Part001.on.
Proof. reflexivity. Qed.

Lemma mergeAttribute_same : SailsModelBuilder.mergeAttribute = Part001.mergeAttribute.
Proof. reflexivity. Qed.

Lemma shareProperties_same : SailsModelBuilder.shareProperties = Part001.shareProperties.
Proof. reflexivity. Qed.

End Agreement.

Section Keys.

Lemma holds_attributes_view s m a mo ao :
  Store.holds s m a mo ao -> Store.attributes s = Some ao.
Proof.
  intros [H1 H2 H3 H4 H5 H6]. unfold Store.attributes. by rewrite H1, H2, H4.
Qed.

(** Writing into the attribute mapping keeps the model in place. *)
Lemma attributes_after_write s m a mo ao h' ev key v :
  Store.holds s m a mo ao -> key <> "attributes" ->
  length (heap s) <= length h' ->
  (forall l o, l < length (heap s) -> heap s !! l = Some o -> h' !! l = Some o) ->
  Store.attributes (mkState (<[a := writeP key v ao]> h') (currentModel s) ev)
  = Some (writeP key v ao).
Proof.
  intros [H1 H2 H3 H4 H5 H6] Hkey Hlen Hext. unfold Store.attributes.
  cbn [heap currentModel]. rewrite H1.
  assert (Ha : a < length h') by (apply lookup_lt_Some in H5; lia).
  assert (Hm : m < length (heap s)) by (by apply lookup_lt_Some in H2).
  destruct (decide (a = m)) as [-> | Hne].
  - rewrite list_lookup_insert_eq by done.
    rewrite H2 in H5. injection H5 as ->.
    rewrite readP_writeP_ne by done. rewrite H4.
    by rewrite list_lookup_insert_eq.
  - rewrite list_lookup_insert_ne by done.
    rewrite (Hext _ _ Hm H2), H4. by rewrite list_lookup_insert_eq.
Qed.

Lemma installed s m a mo ao fresh d ps :
  Store.holds s m a mo ao ->
  (fresh ++ [object ps]) !! (d - length (heap s)) = Some (object ps) ->
  length (heap s) <= d ->
  Store.keyInstalled s
    (mkState (<[a := writeP "id" (VRef d) ao]> (heap s ++ fresh ++ [object ps]))
             (currentModel s) (events s))
    a d ps.
Proof.
  intros Hh Hd Hle.
  assert (Ha : a < length (heap s)) by (destruct Hh; by eapply lookup_lt_Some).
  assert (Hattrs : Store.attributes
            (mkState (<[a := writeP "id" (VRef d) ao]> (heap s ++ fresh ++ [object ps]))
               (currentModel s) (events s)) = Some (writeP "id" (VRef d) ao)).
  { eapply attributes_after_write; eauto.
    - rewrite length_app. lia.
    - intros l o Hl Hlo. by rewrite lookup_app_l. }
  unfold Store.keyInstalled, Store.attribute. rewrite Hattrs.
  rewrite (holds_attributes_view _ _ _ _ _ Hh). simpl.
  repeat split; try done.
  - by rewrite readP_writeP_eq.
  - rewrite list_lookup_insert_ne by lia. by rewrite lookup_app_r.
  - intros name Hname. by rewrite readP_writeP_ne.
  - intros l o Hl Hlo. rewrite list_lookup_insert_ne by done.
    rewrite lookup_app_l; [ done | by eapply lookup_lt_Some ].
Qed.

Lemma uuidKey_run s m a mo ao :
  Store.holds s m a mo ao ->
  let n := length (heap s) in
  let ps := [ ("type", VStr "string"); ("unique", VBool true);
              ("primaryKey", VBool true); ("defaultsTo", VRef n) ] in
  Part001.uuidKey s =
  Ok RThis (mkState (<[a := writeP "id" (VRef (S n)) ao]>
                       (heap s ++ [function UuidV4] ++ [object ps]))
                    (currentModel s) (events s)).
Proof.
  intros Hh n ps. pose proof Hh as [H1 H2 H3 H4 H5 H6].
  unfold Part001.uuidKey.
  unfold bind at 1. unfold readModel at 1. rewrite H1 at 1.
  unfold bind at 1. rewrite (getProp_ok _ _ _ _ H2 H3), H4.
  unfold bind at 1. unfold alloc at 1.
  unfold bind at 1. unfold alloc at 1. cbn [heap currentModel events].
  unfold bind at 1.
  erewrite setProp_ok;
    [ | cbn [heap]; apply lookup_app_l_Some, lookup_app_l_Some, H5 | exact H6 ].
  cbn [heap currentModel events]. unfold ret.
  rewrite length_app, <- app_assoc. cbn [length]. 
  replace (length (heap s) + 1) with (S n) by (subst n; lia). reflexivity.
Qed.

Lemma intKey_run arguments s m a mo ao :
  Store.holds s m a mo ao ->
  let n := length (heap s) in
  let ps := [ ("type", VStr "integer"); ("unique", VBool true);
              ("primaryKey", VBool true);
              ("autoIncrement",
                if decide (arg 0 arguments = VUndefined) then VBool true
                else arg 0 arguments) ] in
  Part001.intKey arguments s =
  Ok RThis (mkState (<[a := writeP "id" (VRef n) ao]> (heap s ++ [] ++ [object ps]))
                    (currentModel s) (events s)).
Proof.
  intros Hh n ps. pose proof Hh as [H1 H2 H3 H4 H5 H6].
  unfold Part001.intKey.
  unfold bind at 1. unfold readModel at 1. rewrite H1 at 1.
  unfold bind at 1. rewrite (getProp_ok _ _ _ _ H2 H3), H4.
  unfold bind at 1. unfold alloc at 1. cbn [heap currentModel events].
  unfold bind at 1.
  erewrite setProp_ok;
    [ | cbn [heap]; apply lookup_app_l_Some, H5 | exact H6 ].
  reflexivity.
Qed.

End Keys.

(** C10.  The key helpers replace, they do not merge.  In either draft,
    whatever the store holds, [uuidKey()] and [intKey(autoIncrement)]
    return the builder and leave under "id" a reference to an object
    created by the call, whose properties are exactly those of the literal
    in the source (the earlier descriptor of "id", if any, contributes
    nothing and is itself untouched); every attribute other than "id" and
    every other object is unchanged. *)
Theorem C10_key_helpers_replace_id
  (lodash : Lodash.Major) (b : Builder) (s : State) (m a : loc) (mo ao : Obj) :
  In b (drafts lodash) ->
  Store.holds s m a mo ao ->
  let n := length (heap s) in
  (exists s',
     uuidKey b s = Ok RThis s'
     /\ heap s' !! n = Some (function UuidV4)
     /\ Store.keyInstalled s s' a (S n)
          [ ("type", VStr "string"); ("unique", VBool true);
            ("primaryKey", VBool true); ("defaultsTo", VRef n) ])
  /\ (forall arguments, exists s',
        intKey b arguments s = Ok RThis s'
        /\ Store.keyInstalled s s' a n
             [ ("type", VStr "integer"); ("unique", VBool true);
               ("primaryKey", VBool true);
               ("autoIncrement",
                 if decide (arg 0 arguments = VUndefined) then VBool true
                 else arg 0 arguments) ]).
Proof.
  intros Hin Hh n.
  assert (Hu : uuidKey b = Part001.uuidKey)
    by (destruct Hin as [<- | [<- | []]]; reflexivity).
  assert (Hi : intKey b = Part001.intKey)
    by (destruct Hin as [<- | [<- | []]]; reflexivity).
  rewrite Hu, Hi.
  assert (Ha : a < length (heap s)) by (destruct Hh; by eapply lookup_lt_Some).
  split.
  - eexists. split; [ apply (uuidKey_run _ _ _ _ _ Hh) | ]. split.
    + simpl. rewrite list_lookup_insert_ne by (fold n; lia).
      rewrite lookup_app_r by done. fold n. by rewrite Nat.sub_diag.
    + apply (installed s m a mo ao [function UuidV4]); [ done | | fold n; lia ].
      fold n. by replace (S n - n) with 1 by lia.
  - intros arguments. eexists. split; [ apply (intKey_run _ _ _ _ _ _ Hh) | ].
    apply (installed s m a mo ao []); [ done | | done ].
    by rewrite Nat.sub_diag.
Qed.

(** C10 on a store that already has a descriptor under "id" and another
    attribute. *)
Lemma C10_witness :
  let s := mkState [ object [("attributes", VRef 1)];
                     object [("id", VRef 2); ("name", VRef 3)];
                     object [("type", VStr "text"); ("size", VNum 9)];
                     object [("type", VStr "string")] ]
             (VRef 0) Mayordomo.empty in
  exists s',
    Part001.intKey [VBool false] s = Ok RThis s'
    /\ Store.keyInstalled s s' 1 4
         [ ("type", VStr "integer"); ("unique", VBool true);
           ("primaryKey", VBool true); ("autoIncrement", VBool false) ].
Proof.
  intros s.
  destruct (C10_key_helpers_replace_id Lodash.Lodash2 (part001 Lodash.Lodash2) s 0 1
              (object [("attributes", VRef 1)])
              (object [("id", VRef 2); ("name", VRef 3)])) as [_ H].
  - left. reflexivity.
  - constructor; reflexivity.
  - exact (H [VBool false]).
Defined.

(** ** The setter of the model *)

Section Setter.


Lemma setup_run (lcs : list string) : forall s m mo,
  currentModel s = VRef m -> heap s !! m = Some mo ->
  isArrayKind (kind mo) = false ->
  forEach Part001.installCallback lcs s
  = Ok tt (mkState (<[m := Store.wire (length (heap s)) lcs mo]>
                      (heap s ++ Store.callbacks lcs))
                   (currentModel s) (events s)).
Proof.
  induction lcs as [ | lc rest IH ]; intros s m mo Hc Hm Hk.
  - cbn [forEach Store.wire Store.callbacks map]. unfold ret.
    rewrite app_nil_r, (list_insert_id _ _ _ Hm). by rewrite state_eta.
  - cbn [forEach].
    assert (Hone : Part001.installCallback lc s =
              Ok tt (mkState (<[m := writeP lc (VRef (length (heap s))) mo]>
                                (heap s ++ [function (LifecycleCallback lc)]))
                             (currentModel s) (events s))).
    { unfold Part001.installCallback.
      unfold bind at 1. unfold readModel at 1. rewrite Hc.
      unfold bind at 1. unfold alloc at 1.
      erewrite setProp_ok; [ | cbn [heap]; apply lookup_app_l_Some, Hm | exact Hk ].
      cbn [heap currentModel events]. by rewrite Hc. }
    rewrite (bind_ok _ _ _ _ _ Hone).
    assert (Hlt : m < length (heap s)) by (by eapply lookup_lt_Some).
    rewrite (IH _ m (writeP lc (VRef (length (heap s))) mo));
      cbn [heap currentModel events].
    + rewrite length_insert, length_app. cbn [length].
      replace (length (heap s) + 1) with (S (length (heap s))) by lia.
      cbn [Store.wire Store.callbacks map].
      rewrite insert_app_l by (rewrite length_insert, length_app; lia).
      rewrite list_insert_insert_eq.
      rewrite <- insert_app_l by (rewrite length_app; lia).
      by rewrite <- app_assoc.
    + exact Hc.
    + apply list_lookup_insert_eq. rewrite length_app. lia.
    + exact Hk.
Qed.

Lemma kind_wire lcs : forall n o, kind (Store.wire n lcs o) = kind o.
Proof. induction lcs as [ | lc r IH ]; intros n o; simpl; [ done | by rewrite IH ]. Qed.

Lemma readP_wire_other key lcs : forall n o,
  ~ In key lcs -> readP key (Store.wire n lcs o) = readP key o.
Proof.
  induction lcs as [ | lc r IH ]; intros n o Hnot; simpl; [ done | ].
  rewrite IH by (intros H; apply Hnot; by right).
  apply readP_writeP_ne. intros ->. apply Hnot. by left.
Qed.

Lemma readP_wire lc lcs : forall n o,
  NoDup lcs -> In lc lcs ->
  exists i, i < length lcs /\ lcs !! i = Some lc /\
            readP lc (Store.wire n lcs o) = VRef (n + i).
Proof.
  induction lcs as [ | x r IH ]; intros n o Hnd Hin; [ destruct Hin | ].
  apply NoDup_cons in Hnd as [Hx Hnd]. simpl.
  destruct (decide (x = lc)) as [-> | Hne].
  - exists 0. split; [ simpl; lia | split; [ done | ] ].
    rewrite readP_wire_other by (by rewrite <- list_elem_of_In).
    rewrite readP_writeP_eq. f_equal. lia.
  - destruct Hin as [ | Hin ]; [ done | ].
    destruct (IH (S n) (writeP x (VRef n) o) Hnd Hin) as (i & Hi & Hl & Hr).
    exists (S i). split; [ simpl; lia | split; [ done | ] ].
    rewrite Hr. f_equal. lia.
Qed.


Lemma callbacks_lookup lcs : forall i lc,
  lcs !! i = Some lc ->
  Store.callbacks lcs !! i = Some (function (LifecycleCallback lc)).
Proof.
  induction lcs as [ | x r IH ]; intros [ | i ] lc H; simpl in *; try done.
  - by injection H as ->.
  - by apply IH.
Qed.

Lemma lifecycles_NoDup : NoDup Part001.lifecycles.
Proof.
  unfold Part001.lifecycles.
  repeat (apply NoDup_cons; split;
          [ rewrite list_elem_of_In; simpl; intros H;
            repeat (destruct H as [ H | H ]; [ discriminate H | ]); exact H | ]).
  apply NoDup_nil. done.
Qed.

Lemma attributes_not_lifecycle : ~ In "attributes" Part001.lifecycles.
Proof.
  simpl. intros H. repeat (destruct H as [ H | H ]; [ discriminate H | ]). exact H.
Qed.

(** The setter of part_001 on a descriptor object. *)
Lemma model_run (arguments rest : list Value) s m mo :
  arguments = VRef m :: rest ->
  heap s !! m = Some mo -> isArrayKind (kind mo) = false ->
  let n := length (heap s) in
  let lacks := negb (truthy (readP "attributes" mo)) in
  let fresh := if lacks then [object []] else [] in
  let mo1 := if lacks then writeP "attributes" (VRef n) mo else mo in
  Part001.model arguments s =
  Ok RThis (mkState (<[m := Store.wire (n + length fresh) Part001.lifecycles mo1]>
                       ((heap s ++ fresh) ++ Store.callbacks Part001.lifecycles))
                    (VRef m) (events s)).
Proof.
  intros -> Hm Hk n lacks fresh mo1.
  assert (Hlt : m < length (heap s)) by (by eapply lookup_lt_Some).
  unfold Part001.model. cbn [length Nat.eqb arg nth].
  unfold bind at 1. unfold writeModel at 1.
  unfold bind at 1. unfold readModel at 1. cbn [currentModel].
  unfold bind at 1. erewrite getProp_ok; [ | exact Hm | exact Hk ].
  unfold Part001.setupLifecycleEvents.
  subst lacks fresh mo1. destruct (truthy (readP "attributes" mo)); cbn [negb].
  - unfold bind at 1. unfold ret at 1.
    unfold bind at 1.
    rewrite (setup_run _ _ m mo); [ | done | exact Hm | exact Hk ].
    cbn [heap currentModel events length]. unfold ret.
    rewrite app_nil_r. by replace (n + 0) with n by lia.
  - unfold bind at 1. unfold bind at 1. unfold alloc at 1.
    erewrite setProp_ok; [ | cbn [heap]; apply lookup_app_l_Some, Hm | exact Hk ].
    cbn [heap currentModel events].
    unfold bind at 1.
    rewrite (setup_run _ _ m (writeP "attributes" (VRef (length (heap s))) mo));
      [ | done | cbn [heap]; apply list_lookup_insert_eq; rewrite length_app; lia
        | exact Hk ].
    cbn [heap currentModel events length]. unfold ret.
    rewrite length_insert, length_app. cbn [length].
    rewrite <- insert_app_l by (rewrite length_app; lia).
    by rewrite list_insert_insert_eq.
Qed.

End Setter.

Section SetterAgreement.

Lemma getProp_pure target key s v s' :
  getProp target key s = Ok v s' -> s' = s.
Proof.
  unfold getProp, bind, deref, throw, ret.
  destruct target; try discriminate.
  destruct (heap s !! l); [ | discriminate ].
  destruct (isArrayKind (kind o)); [ discriminate | ]. by intros [= _ ->].
Qed.

(** Given a descriptor, [create] of sails-model-builder.js is [model] of
    part_001. *)
Lemma create_model_same arguments s :
  truthy (arg 0 arguments) = true ->
  SailsModelBuilder.create arguments s = Part001.model arguments s.
Proof.
  intros Ht. unfold SailsModelBuilder.create, Part001.model.
  destruct arguments as [ | v rest ]; [ discriminate Ht | ].
  cbn [length Nat.eqb arg nth] in *. rewrite Ht. cbn [negb].
  unfold SailsModelBuilder.setUpLifecycleEvents, Part001.setupLifecycleEvents.
  change SailsModelBuilder.installCallback with Part001.installCallback.
  change SailsModelBuilder.lifeCycles with Part001.lifecycles.
  unfold bind, readModel, writeModel, ret. cbn [currentModel heap events].
  destruct (getProp v "attributes" (mkState (heap s) v (events s))) as [ a s1 | e ] eqn:E;
    [ | reflexivity ].
  apply getProp_pure in E as ->. cbn [currentModel].
  destruct (truthy a); cbn [negb].
  - destruct (forEach Part001.installCallback Part001.lifecycles _); reflexivity.
  - unfold alloc. cbn [currentModel heap events].
    destruct (setProp v "attributes" _ _) as [ [] s2 | ]; [ | reflexivity ].
    destruct (forEach Part001.installCallback Part001.lifecycles s2); reflexivity.
Qed.

End SetterAgreement.

(** C9.  For every descriptor object passed to the setter of the model
    ([model] in part_001, [create] in sails-model-builder.js): the call
    returns the builder; the current model is that very object; its
    [attributes] property is the one it came with or, if it came with none,
    a new empty object; each of the eight lifecycle names holds a new
    function, the lifecycle function of that name, which the framework can
    call; its other properties and all other objects are unchanged. *)
Theorem C9_setter_installs_descriptor
  (lodash : Lodash.Major) (b : Builder) (s : State) (m : loc) (mo : Obj)
  (rest : list Value) :
  In b (drafts lodash) ->
  heap s !! m = Some mo ->
  isArrayKind (kind mo) = false ->
  exists s' mo',
    setModel b (VRef m :: rest) s = Ok RThis s'
    /\ currentModel s' = VRef m
    /\ events s' = events s
    /\ heap s' !! m = Some mo'
    /\ kind mo' = kind mo
    /\ (if truthy (readP "attributes" mo)
        then readP "attributes" mo' = readP "attributes" mo
        else readP "attributes" mo' = VRef (length (heap s))
             /\ heap s' !! length (heap s) = Some (object []))
    /\ (forall lc instance, In lc Part001.lifecycles ->
          exists fn,
            readP lc mo' = VRef fn
            /\ length (heap s) <= fn
            /\ heap s' !! fn = Some (function (LifecycleCallback lc))
            /\ Part001.fire lc instance s' =
               Ok (RFrame (Part001.lifecycleCallback (events s') lc instance)) s')
    /\ (forall key, key <> "attributes" -> ~ In key Part001.lifecycles ->
          readP key mo' = readP key mo)
    /\ (forall l o, l <> m -> heap s !! l = Some o -> heap s' !! l = Some o).
Proof.
  intros Hin Hm Hk.
  assert (Hb : setModel b (VRef m :: rest) s = Part001.model (VRef m :: rest) s).
  { destruct Hin as [<- | [<- | []]]; [ reflexivity | ].
    by apply create_model_same. }
  rewrite Hb. clear Hb Hin.
  assert (Hlt : m < length (heap s)) by (by eapply lookup_lt_Some).
  rewrite (model_run _ rest s m mo eq_refl Hm Hk).
  set (n := length (heap s)).
  set (lacks := negb (truthy (readP "attributes" mo))).
  set (fresh := if lacks then [object []] else []).
  set (mo1 := if lacks then writeP "attributes" (VRef n) mo else mo).
  set (mo' := Store.wire (n + length fresh) Part001.lifecycles mo1).
  set (h' := (heap s ++ fresh) ++ Store.callbacks Part001.lifecycles).
  assert (Hlen : length h' = n + length fresh + 8).
  { subst h'. rewrite !length_app. reflexivity. }
  assert (Hm' : <[m := mo']> h' !! m = Some mo').
  { apply list_lookup_insert_eq. lia. }
  exists (mkState (<[m := mo']> h') (VRef m) (events s)), mo'.
  cbn [heap currentModel events].
  split; [ done | split; [ done | split; [ done | split; [ done | ] ] ] ].
  split; [ | split; [ | split; [ | split ] ] ].
  - subst mo'. rewrite kind_wire. subst mo1. by destruct lacks.
  - subst mo'. rewrite readP_wire_other by apply attributes_not_lifecycle.
    subst mo1 lacks fresh h'. destruct (truthy (readP "attributes" mo)); cbn [negb].
    + done.
    + split; [ apply readP_writeP_eq | ].
      rewrite list_lookup_insert_ne by lia.
      rewrite <- app_assoc. rewrite lookup_app_r by done.
      fold n. by rewrite Nat.sub_diag.
  - intros lc instance Hlc.
    destruct (readP_wire lc Part001.lifecycles (n + length fresh) mo1
                lifecycles_NoDup Hlc) as (i & Hi & Hl & Hr).
    fold mo' in Hr.
    assert (Hfn : <[m := mo']> h' !! (n + length fresh + i)
                  = Some (function (LifecycleCallback lc))).
    { rewrite list_lookup_insert_ne by lia. subst h'.
      rewrite lookup_app_r by (rewrite length_app; fold n; lia).
      rewrite length_app. fold n.
      replace (n + length fresh + i - (n + length fresh)) with i by lia.
      by apply callbacks_lookup. }
    exists (n + length fresh + i). split; [ done | split; [ lia | split; [ done | ] ] ].
    unfold Part001.fire. unfold bind at 1. unfold readModel at 1. cbn [currentModel].
    unfold bind at 1. erewrite getProp_ok; [ | cbn [heap]; exact Hm' | ].
    + rewrite Hr. unfold bind at 1.
      rewrite (deref_ok (mkState (<[m := mo']> h') (VRef m) (events s)) _ _ Hfn).
      reflexivity.
    + subst mo'. rewrite kind_wire. subst mo1. by destruct lacks.
  - intros key Hkey Hnot. subst mo'. rewrite readP_wire_other by done.
    subst mo1. destruct lacks; [ by apply readP_writeP_ne | done ].
  - intros l o Hl Hlo. rewrite list_lookup_insert_ne by done. subst h'.
    rewrite <- app_assoc. by apply lookup_app_l_Some.
Qed.

(** C9 on a descriptor without attributes that carries a table name. *)
Lemma C9_witness :
  let s := mkState [ object [("tableName", VStr "users")] ] VUndefined Mayordomo.empty in
  exists s' mo',
    SailsModelBuilder.create [VRef 0] s = Ok RThis s'
    /\ currentModel s' = VRef 0
    /\ heap s' !! 0 = Some mo'
    /\ readP "attributes" mo' = VRef 1
    /\ readP "tableName" mo' = VStr "users".
Proof.
  intros s.
  destruct (C9_setter_installs_descriptor Lodash.Lodash3 (sailsModelBuilder Lodash.Lodash3)
              s 0 (object [("tableName", VStr "users")]) [])
    as (s' & mo' & H1 & H2 & _ & H4 & _ & H6 & _ & H8 & _).
  - right. left. reflexivity.
  - reflexivity.
  - reflexivity.
  - exists s', mo'. simpl in H6. destruct H6 as [H6 _].
    repeat split; try assumption.
    apply H8; [ discriminate | ].
    simpl. intros H. repeat (destruct H as [ H | H ]; [ discriminate H | ]). exact H.
Defined.

(** ** The callbacks of [attr] *)

Section Attr.
Context (lodash : Lodash.Major).

Lemma readP_ref_getP key o l : readP key o = VRef l -> getP key (props o) = Some (VRef l).
Proof. unfold readP. destruct (getP key (props o)); [ by intros -> | discriminate ]. Qed.

Lemma insert_last {A} (h : list A) (x y : A) : <[length h := y]> (h ++ [x]) = h ++ [y].
Proof.
  replace (length h) with (length h + 0) by lia. by rewrite insert_app_r.
Qed.

(** The attribute mapping seen through the model after the mapping's cell
    has been rewritten. *)
Lemma attributes_view (h : Heap) m a mo ao' ev :
  readP "attributes" mo = VRef a ->
  (m <> a -> h !! m = Some mo) ->
  (m = a -> readP "attributes" ao' = VRef a) ->
  a < length h ->
  Store.attributes (mkState (<[a := ao']> h) (VRef m) ev) = Some ao'.
Proof.
  intros Hattr Hm Hself Ha. unfold Store.attributes. cbn [heap currentModel].
  destruct (decide (m = a)) as [-> | Hne].
  - rewrite list_lookup_insert_eq by done. rewrite (Hself eq_refl).
    by rewrite list_lookup_insert_eq.
  - rewrite list_lookup_insert_ne by done. rewrite (Hm Hne), Hattr.
    by rewrite list_lookup_insert_eq.
Qed.

(** Overload #2 of part_001 when nothing (or a falsy value) is stored under
    the name: a new object receives the property and is stored. *)
Lemma attr3_absent s m a mo ao name key value :
  Store.holds s m a mo ao ->
  truthy (readP name ao) = false ->
  Part001.attr lodash [VStr name; VStr key; value] s =
  Ok RThis (mkState (<[a := writeP name (VRef (length (heap s))) ao]>
                       (heap s ++ [object [(key, value)]]))
                    (currentModel s) (events s)).
Proof.
  intros [H1 H2 H3 H4 H5 H6] Hfalsy.
  destruct s as [h cm ev]. cbn [heap currentModel events] in *. subst cm.
  unfold Part001.attr. cbn [arg nth length Nat.eqb Lodash.isArray Lodash.isObject].
  unfold bind at 1. unfold ret at 1. cbn [negb andb].
  unfold bind at 1. unfold readModel at 1. cbn [currentModel].
  unfold bind at 1. erewrite getProp_ok; [ | exact H2 | exact H3 ]. rewrite H4.
  unfold bind at 1. erewrite getAt_ok; [ | exact H5 | exact H6 ].
  unfold bind at 1. unfold orEmptyObject. rewrite Hfalsy. unfold alloc at 1.
  unfold bind at 1.
  erewrite setAt_ok; [ | cbn [heap]; by apply list_lookup_middle | reflexivity ].
  cbn [heap currentModel events]. rewrite insert_last.
  unfold bind at 1. unfold readModel at 1. cbn [currentModel].
  unfold bind at 1.
  erewrite getProp_ok; [ | cbn [heap]; apply lookup_app_l_Some, H2 | exact H3 ].
  rewrite H4. unfold bind at 1.
  erewrite setAt_ok; [ | cbn [heap]; apply lookup_app_l_Some, H5 | exact H6 ].
  reflexivity.
Qed.

(** Overload #2 of part_001 when the name holds a descriptor object: the
    property is assigned in that object and nothing else changes. *)
Lemma attr3_present s m a mo ao name key value d dobj :
  Store.holds s m a mo ao ->
  readP name ao = VRef d -> d <> m -> d <> a ->
  heap s !! d = Some dobj -> isArrayKind (kind dobj) = false ->
  Part001.attr lodash [VStr name; VStr key; value] s =
  Ok RThis (mkState (<[d := writeP key value dobj]> (heap s))
                    (currentModel s) (events s)).
Proof.
  intros [H1 H2 H3 H4 H5 H6] Hstored Hdm Hda Hd Hdk.
  destruct s as [h cm ev]. cbn [heap currentModel events] in *. subst cm.
  unfold Part001.attr. cbn [arg nth length Nat.eqb Lodash.isArray Lodash.isObject].
  unfold bind at 1. unfold ret at 1. cbn [negb andb].
  unfold bind at 1. unfold readModel at 1. cbn [currentModel].
  unfold bind at 1. erewrite getProp_ok; [ | exact H2 | exact H3 ]. rewrite H4.
  unfold bind at 1. erewrite getAt_ok; [ | exact H5 | exact H6 ]. rewrite Hstored.
  unfold bind at 1. unfold orEmptyObject. cbn [truthy]. unfold ret at 1.
  unfold bind at 1. erewrite setAt_ok; [ | exact Hd | exact Hdk ].
  cbn [heap currentModel events].
  unfold bind at 1. unfold readModel at 1. cbn [currentModel].
  unfold bind at 1.
  erewrite getProp_ok;
    [ | cbn [heap]; rewrite list_lookup_insert_ne by done; exact H2 | exact H3 ].
  rewrite H4. unfold bind at 1.
  erewrite setAt_ok;
    [ | cbn [heap]; rewrite list_lookup_insert_ne by done; exact H5 | exact H6 ].
  cbn [heap currentModel events]. unfold ret.
  rewrite (writeP_id _ _ _ (readP_ref_getP _ _ _ Hstored)).
  rewrite list_insert_id; [ done | ].
  rewrite list_lookup_insert_ne by done. exact H5.
Qed.

Lemma sourceProps_pure source s ps s' :
  Lodash.sourceProps lodash source s = Ok ps s' -> s' = s.
Proof.
  unfold Lodash.sourceProps, bind, deref, throw, ret.
  destruct source; try (by intros [= _ ->]).
  - destruct lodash; by intros [= _ ->].
  - destruct (heap s !! l); [ | discriminate ].
    destruct (isArrayKind (kind o)); [ discriminate | ]. by intros [= _ ->].
Qed.

(** The source of a merge reads the same in a heap that has grown, or in
    which cells were rewritten without touching the source object. *)
Lemma sourceProps_frame source s ps (h' : Heap) cm ev :
  Lodash.sourceProps lodash source s = Ok ps s ->
  (forall l o, source = VRef l -> heap s !! l = Some o -> h' !! l = Some o) ->
  Lodash.sourceProps lodash source (mkState h' cm ev) = Ok ps (mkState h' cm ev).
Proof.
  unfold Lodash.sourceProps, bind, deref, throw, ret.
  destruct source; try (by intros [= ->] _).
  - destruct lodash; by intros [= ->] _.
  - intros H Hframe. cbn [heap].
    destruct (heap s !! l) as [ o | ] eqn:E; [ | discriminate ].
    rewrite (Hframe l o eq_refl E).
    destruct (isArrayKind (kind o)); [ discriminate | ]. by injection H as ->.
Qed.

(** Overload #3, one name, nothing (or a falsy value) stored under it: a new
    object receives the shared properties and is stored. *)
Lemma share_absent s m a mo ao name shared ps :
  Store.holds s m a mo ao ->
  truthy (readP name ao) = false ->
  Lodash.sourceProps lodash shared s = Ok ps s ->
  Part001.shareProperties lodash shared (VStr name) s =
  Ok tt (mkState (<[a := writeP name (VRef (length (heap s))) ao]>
                    (heap s ++ [Lodash.assignAll ps (object [])]))
                 (currentModel s) (events s)).
Proof.
  intros [H1 H2 H3 H4 H5 H6] Hfalsy Hsrc.
  destruct s as [h cm ev]. cbn [heap currentModel events] in *. subst cm.
  unfold Part001.shareProperties.
  unfold bind at 1. unfold readModel at 1. cbn [currentModel].
  unfold bind at 1. erewrite getProp_ok; [ | exact H2 | exact H3 ]. rewrite H4.
  unfold bind at 1. erewrite getAt_ok; [ | exact H5 | exact H6 ].
  unfold bind at 1. unfold orEmptyObject. rewrite Hfalsy. unfold alloc at 1.
  cbn [heap currentModel events].
  unfold bind at 1.
  erewrite extend_ok;
    [ | apply (sourceProps_frame _ _ _ _ _ _ Hsrc);
        intros l o _ Hl; by apply lookup_app_l_Some
      | cbn [heap]; by apply list_lookup_middle | reflexivity ].
  cbn [heap currentModel events]. rewrite insert_last.
  unfold bind at 1. unfold readModel at 1. cbn [currentModel].
  unfold bind at 1.
  erewrite getProp_ok; [ | cbn [heap]; apply lookup_app_l_Some, H2 | exact H3 ].
  rewrite H4.
  erewrite setAt_ok; [ | cbn [heap]; apply lookup_app_l_Some, H5 | exact H6 ].
  reflexivity.
Qed.

(** Overload #3, one name that holds a descriptor object: the shared
    properties are assigned in that object and nothing else changes. *)
Lemma share_present s m a mo ao name shared ps d dobj :
  Store.holds s m a mo ao ->
  readP name ao = VRef d -> d <> m -> d <> a ->
  heap s !! d = Some dobj -> isArrayKind (kind dobj) = false ->
  Lodash.sourceProps lodash shared s = Ok ps s ->
  Part001.shareProperties lodash shared (VStr name) s =
  Ok tt (mkState (<[d := Lodash.assignAll ps dobj]> (heap s))
                 (currentModel s) (events s)).
Proof.
  intros [H1 H2 H3 H4 H5 H6] Hstored Hdm Hda Hd Hdk Hsrc.
  destruct s as [h cm ev]. cbn [heap currentModel events] in *. subst cm.
  unfold Part001.shareProperties.
  unfold bind at 1. unfold readModel at 1. cbn [currentModel].
  unfold bind at 1. erewrite getProp_ok; [ | exact H2 | exact H3 ]. rewrite H4.
  unfold bind at 1. erewrite getAt_ok; [ | exact H5 | exact H6 ]. rewrite Hstored.
  unfold bind at 1. unfold orEmptyObject. cbn [truthy]. unfold ret at 1.
  unfold bind at 1. erewrite extend_ok; [ | exact Hsrc | exact Hd | exact Hdk ].
  cbn [heap currentModel events].
  unfold bind at 1. unfold readModel at 1. cbn [currentModel].
  unfold bind at 1.
  erewrite getProp_ok;
    [ | cbn [heap]; rewrite list_lookup_insert_ne by done; exact H2 | exact H3 ].
  rewrite H4.
  erewrite setAt_ok;
    [ | cbn [heap]; rewrite list_lookup_insert_ne by done; exact H5 | exact H6 ].
  cbn [heap currentModel events].
  rewrite (writeP_id _ _ _ (readP_ref_getP _ _ _ Hstored)).
  rewrite list_insert_id; [ done | ].
  rewrite list_lookup_insert_ne by done. exact H5.
Qed.

(** The callback of overload #1 on a descriptor that is not a function is
    the callback of overload #3 on one name. *)
Lemma merge_as_share attribute name s :
  (forall h', Lodash.isFunction attribute (mkState (heap s ++ h') (currentModel s) (events s))
              = Ok false (mkState (heap s ++ h') (currentModel s) (events s))) ->
  Part001.mergeAttribute lodash attribute name s
  = Part001.shareProperties lodash attribute (VStr name) s.
Proof.
  intros Hfn. unfold Part001.mergeAttribute, Part001.shareProperties.
  unfold bind, readModel, ret, getAt, setAt, toKey.
  destruct (getProp (currentModel s) "attributes" s) as [ attrs s1 | ] eqn:E1;
    [ | reflexivity ].
  apply getProp_pure in E1 as ->.
  destruct attrs; cbn beta iota; try reflexivity.
  unfold bind, ret.
  destruct (getProp (VRef l) name s) as [ stored s1 | ] eqn:E2; [ | reflexivity ].
  apply getProp_pure in E2 as ->.
  assert (Hcur : exists cur h', orEmptyObject stored s
            = Ok cur (mkState (heap s ++ h') (currentModel s) (events s))).
  { unfold orEmptyObject, ret, alloc. destruct (truthy stored).
    - exists stored, []. by rewrite app_nil_r, state_eta.
    - eexists _, [object []]. reflexivity. }
  destruct Hcur as (cur & h' & ->). rewrite Hfn. cbn [negb].
  destruct (Lodash.extend lodash cur attribute _) as [ [] s2 | ]; [ | reflexivity ].
  destruct (getProp (currentModel s2) "attributes" s2) as [ attrs2 s3 | ];
    [ | reflexivity ].
  by destruct attrs2.
Qed.
End Attr.

Section AttrAgreement.
Context (lodash : Lodash.Major).

(** Outside the call with three arguments the two texts of [attr] are the
    same function. *)
Lemma attr_same_arity arguments s :
  (length arguments =? 3)%nat = false ->
  SailsModelBuilder.attr lodash arguments s = Part001.attr lodash arguments s.
Proof.
  intros Hlen. unfold SailsModelBuilder.attr, Part001.attr.
  change SailsModelBuilder.mergeAttribute with Part001.mergeAttribute.
  change SailsModelBuilder.shareProperties with Part001.shareProperties.
  apply bind_ext. intros isArr s1.
  destruct (negb isArr && Lodash.isObject (arg 0 arguments)); [ reflexivity | ].
  rewrite Hlen. reflexivity.
Qed.

Lemma attr_same_mapping arguments s :
  Lodash.isArray (arg 0 arguments) s = Ok false s ->
  Lodash.isObject (arg 0 arguments) = true ->
  SailsModelBuilder.attr lodash arguments s = Part001.attr lodash arguments s.
Proof.
  intros Harr Hobj. unfold SailsModelBuilder.attr, Part001.attr.
  change SailsModelBuilder.mergeAttribute with Part001.mergeAttribute.
  rewrite !(bind_ok _ _ _ _ _ Harr). cbn [negb andb]. rewrite Hobj. reflexivity.
Qed.

(** [attr] hands back the builder whenever it returns. *)
Lemma attr_returns_this arguments s r s' :
  Part001.attr lodash arguments s = Ok r s' -> r = RThis.
Proof.
  unfold Part001.attr, bind, ret.
  destruct (Lodash.isArray (arg 0 arguments) s) as [ isArr s1 | ]; [ | discriminate ].
  destruct (negb isArr && Lodash.isObject (arg 0 arguments)).
  - destruct (Lodash.eachOwn _ _ s1); [ by intros [= <- _] | discriminate ].
  - destruct (length arguments =? 3)%nat.
    + repeat match goal with
             | |- match ?x with Ok _ _ => _ | Err _ => _ end = _ -> _ =>
                 destruct x; [ | discriminate ]
             end.
      by intros [= <- _].
    + repeat match goal with
             | |- match ?x with Ok _ _ => _ | Err _ => _ end = _ -> _ =>
                 destruct x; [ | discriminate ]
             end.
      by intros [= <- _].
Qed.

Lemma require_same arguments s :
  SailsModelBuilder.require lodash arguments s = Part001.require lodash arguments s.
Proof.
  unfold SailsModelBuilder.require, Part001.require.
  apply bind_ext. intros names s1.
  apply bind_ext. intros shared s2.
  rewrite attr_same_arity by reflexivity.
  unfold bind, ret.
  destruct (Part001.attr lodash [names; shared] s2) as [ r s3 | ] eqn:E; [ | reflexivity ].
  by rewrite (attr_returns_this _ _ _ _ E).
Qed.

End AttrAgreement.

Section Mapping.
Context (lodash : Lodash.Major).

(** The callback of overload #1 on a function: the function is stored as
    it is, whatever was there. *)
Lemma merge_function s m a mo ao name f fo :
  Store.holds s m a mo ao ->
  heap s !! f = Some fo -> isFunctionKind (kind fo) = true ->
  Part001.mergeAttribute lodash (VRef f) name s =
  Ok tt (mkState (<[a := writeP name (VRef f) ao]>
                    (heap s ++ if truthy (readP name ao) then [] else [object []]))
                 (currentModel s) (events s)).
Proof.
  intros [H1 H2 H3 H4 H5 H6] Hf Hfk.
  destruct s as [h cm ev]. cbn [heap currentModel events] in *. subst cm.
  unfold Part001.mergeAttribute.
  unfold bind at 1. unfold readModel at 1. cbn [currentModel].
  unfold bind at 1. erewrite getProp_ok; [ | exact H2 | exact H3 ]. rewrite H4.
  unfold bind at 1. erewrite getProp_ok; [ | exact H5 | exact H6 ].
  unfold bind at 1. unfold orEmptyObject.
  destruct (truthy (readP name ao)).
  - unfold ret at 1. unfold bind at 1.
    erewrite isFunction_ok; [ | exact Hf ]. rewrite Hfk. cbn [negb].
    unfold bind at 1. unfold ret at 1.
    unfold bind at 1. unfold readModel at 1. cbn [currentModel].
    unfold bind at 1. erewrite getProp_ok; [ | exact H2 | exact H3 ]. rewrite H4.
    erewrite setProp_ok; [ | exact H5 | exact H6 ].
    cbn [heap currentModel events]. by rewrite app_nil_r.
  - unfold alloc at 1. cbn [heap currentModel events]. unfold bind at 1.
    erewrite isFunction_ok; [ | cbn [heap]; apply lookup_app_l_Some, Hf ].
    rewrite Hfk. cbn [negb].
    unfold bind at 1. unfold ret at 1.
    unfold bind at 1. unfold readModel at 1. cbn [currentModel].
    unfold bind at 1.
    erewrite getProp_ok; [ | cbn [heap]; apply lookup_app_l_Some, H2 | exact H3 ].
    rewrite H4.
    erewrite setProp_ok; [ | cbn [heap]; apply lookup_app_l_Some, H5 | exact H6 ].
    reflexivity.
Qed.

(** [attr] on a mapping with one entry runs the callback of overload #1
    once, on that entry. *)
Lemma attr_single_entry s mp name v rest :
  heap s !! mp = Some (object [(name, v)]) ->
  (forall n, v <> VNum n) ->
  Part001.attr lodash (VRef mp :: rest) s =
  (Part001.mergeAttribute lodash v name ;; ret RThis) s.
Proof.
  intros Hmp Hnum. unfold Part001.attr. cbn [arg nth].
  erewrite (bind_ok _ _ _ _ _ (isArray_ok _ _ _ Hmp)).
  cbn [kind object isArrayKind negb andb Lodash.isObject].
  unfold Lodash.eachOwn.
  unfold bind at 1. unfold bind at 1. rewrite (deref_ok _ _ _ Hmp).
  cbn [kind object props map fst forEach].
  assert (Hlen : match readP "length" (object [(name, v)]) with
                 | VNum _ => true | _ => false end = false).
  { unfold readP. cbn [props object getP].
    destruct (name =? "length")%string; [ | reflexivity ].
    destruct v; try reflexivity. by destruct (Hnum n). }
  destruct (readP "length" (object [(name, v)])); try discriminate Hlen.
  all: unfold bind at 1; unfold bind at 1; unfold bind at 1;
    erewrite getProp_ok; [ | exact Hmp | reflexivity ];
    unfold readP; cbn [props object getP]; rewrite String.eqb_refl;
    unfold bind, ret;
    destruct (Part001.mergeAttribute lodash v name s) as [ [] s1 | ]; reflexivity.
Qed.

(** [attr] on any plain mapping runs the callback of overload #1 on each
    entry in turn: the keys are those the mapping has when the call starts,
    each value is read when its turn comes. *)
Lemma attr_mapping_loop s mp mobj rest :
  heap s !! mp = Some mobj -> kind mobj = KObject ->
  (forall n, readP "length" mobj <> VNum n) ->
  Part001.attr lodash (VRef mp :: rest) s =
  (forEach (fun k => v <- getProp (VRef mp) k ;; Part001.mergeAttribute lodash v k)
           (map fst (props mobj)) ;;
   ret RThis) s.
Proof.
  intros Hmp Hkind Hlen. unfold Part001.attr. cbn [arg nth].
  erewrite (bind_ok _ _ _ _ _ (isArray_ok _ _ _ Hmp)). rewrite Hkind.
  cbn [isArrayKind negb andb Lodash.isObject].
  unfold Lodash.eachOwn.
  unfold bind at 1. unfold bind at 1. rewrite (deref_ok _ _ _ Hmp), Hkind.
  unfold bind at 1.
  destruct (readP "length" mobj) eqn:E; try reflexivity.
  by destruct (Hlen n).
Qed.

End Mapping.



(** ** The shared-properties overload keeps a stored function *)

Section Shared.
Context (lodash : Lodash.Major).

Lemma strings_map vs ns : Store.strings vs = Some ns -> vs = map VStr ns.
Proof.
  revert ns. induction vs as [ | v vs IH ]; intros ns; simpl.
  - by intros [= <-].
  - destruct v; try discriminate.
    destruct (Store.strings vs) as [ xs | ]; [ | discriminate ].
    intros [= <-]. simpl. by rewrite (IH xs eq_refl).
Qed.

Lemma strings_of_map ns : Store.strings (map VStr ns) = Some ns.
Proof. induction ns as [ | x r IH ]; simpl; [ done | by rewrite IH ]. Qed.

Lemma sourceProps_total source s :
  Store.mergeable (heap s) source ->
  exists ps, Lodash.sourceProps lodash source s = Ok ps s.
Proof.
  intros Hm. unfold Lodash.sourceProps.
  destruct source; try (eexists; reflexivity).
  - destruct lodash; eexists; reflexivity.
  - destruct (Hm l eq_refl) as (o & Hl & Hk). exists (props o).
    rewrite (bind_ok _ _ _ _ _ (deref_ok _ _ _ Hl)). by rewrite Hk.
Qed.

Lemma preserved_refl h : Store.preserved h h.
Proof. intros l o H. by exists o. Qed.

Lemma preserved_trans h1 h2 h3 :
  Store.preserved h1 h2 -> Store.preserved h2 h3 -> Store.preserved h1 h3.
Proof.
  intros H12 H23 l o H. destruct (H12 l o H) as (o2 & H2 & K2).
  destruct (H23 l o2 H2) as (o3 & H3 & K3). exists o3. split; [ done | congruence ].
Qed.

Lemma preserved_app h extra : Store.preserved h (h ++ extra).
Proof. intros l o H. exists o. split; [ by apply lookup_app_l_Some | done ]. Qed.

Lemma preserved_insert (h : Heap) l o o' :
  h !! l = Some o -> kind o' = kind o -> Store.preserved h (<[l := o']> h).
Proof.
  intros Hl Hk l0 o0 H0. destruct (decide (l = l0)) as [<- | Hne].
  - exists o'. split; [ apply list_lookup_insert_eq; by eapply lookup_lt_Some | ].
    congruence.
  - exists o0. split; [ by rewrite list_lookup_insert_ne | done ].
Qed.

Lemma mergeable_preserved h h' v :
  Store.preserved h h' -> Store.mergeable h v -> Store.mergeable h' v.
Proof.
  intros Hp Hm l Hv. destruct (Hm l Hv) as (o & Hl & Hk).
  destruct (Hp l o Hl) as (o' & Hl' & Hk'). exists o'. split; [ done | congruence ].
Qed.

Lemma tidy_distinct s m a mo ao :
  Store.holds s m a mo ao -> Store.tidy (heap s) m a ao -> m <> a.
Proof.
  intros [H1 H2 H3 H4 H5 H6] Ht ->. rewrite H2 in H5. injection H5 as ->.
  destruct (Ht "attributes" (VRef a) (readP_ref_getP _ _ _ H4))
    as [ Hf | (l & o & [= <-] & _ & Hne & _) ]; [ discriminate | done ].
Qed.

(** New objects leave a store as it is. *)
Lemma keepsFunction_alloc s m a name f body extra :
  Store.keepsFunction s m a name f body ->
  Store.keepsFunction (mkState (heap s ++ extra) (currentModel s) (events s))
    m a name f body.
Proof.
  intros (mo & ao & fo & [H1 H2 H3 H4 H5 H6] & Ht & Hn & Hf & Hfk).
  exists mo, ao, fo. cbn [heap currentModel].
  split; [ constructor; cbn [heap currentModel]; auto using lookup_app_l_Some | ].
  split; [ | auto using lookup_app_l_Some ].
  intros x v Hx. destruct (Ht x v Hx) as [ | (l & o & -> & ? & ? & Hl & ?) ]; [ by left | ].
  right. exists l, o. auto 10 using lookup_app_l_Some.
Qed.

(** One round of the loop of overload #3 keeps the function in place. *)
Lemma share_keeps s m a name f body shared x :
  Store.keepsFunction s m a name f body ->
  Store.mergeable (heap s) shared ->
  exists s',
    Part001.shareProperties lodash shared (VStr x) s = Ok tt s'
    /\ Store.keepsFunction s' m a name f body
    /\ Store.preserved (heap s) (heap s').
Proof.
  intros (mo & ao & fo & Hh & Ht & Hn & Hf & Hfk) Hmerge.
  pose proof (tidy_distinct _ _ _ _ _ Hh Ht) as Hma.
  pose proof Hh as [H1 H2 H3 H4 H5 H6].
  assert (Hm : m < length (heap s)) by (by eapply lookup_lt_Some).
  assert (Ha : a < length (heap s)) by (by eapply lookup_lt_Some).
  destruct (sourceProps_total shared s Hmerge) as (ps & Hsrc).
  destruct (Ht name (VRef f) (readP_ref_getP _ _ _ Hn))
    as [ Hbad | (f' & fo' & [= <-] & Hfm & Hfa & Hf' & _) ]; [ discriminate | ].
  assert (Hcases : truthy (readP x ao) = false \/
            exists d dobj, readP x ao = VRef d /\ d <> m /\ d <> a /\
                           heap s !! d = Some dobj /\ isArrayKind (kind dobj) = false).
  { unfold readP. destruct (getP x (props ao)) as [ v | ] eqn:E; [ | by left ].
    destruct (Ht x v E) as [ | (l & o & -> & ? & ? & ? & ?) ]; [ by left | ].
    right. by exists l, o. }
  destruct Hcases as [ Hfalsy | (d & dobj & Hstored & Hdm & Hda & Hd & Hdk) ].
  - eexists. split; [ apply (share_absent lodash s m a mo ao x shared ps Hh Hfalsy Hsrc) | ].
    assert (Hxn : x <> name) by (intros ->; rewrite Hn in Hfalsy; discriminate).
    set (n := length (heap s)).
    set (new := Lodash.assignAll ps (object [])).
    cbn [heap]. split.
    + exists mo, (writeP x (VRef n) ao), fo. cbn [heap currentModel].
      split; [ constructor; cbn [heap currentModel]; auto | ].
      * rewrite list_lookup_insert_ne by done. by apply lookup_app_l_Some.
      * apply list_lookup_insert_eq. rewrite length_app. lia.
      * split; [ | split; [ by rewrite readP_writeP_ne | split; [ | done ] ] ].
        -- intros y v. cbn [writeP props]. rewrite getP_setP.
           destruct (x =? y)%string.
           ++ intros [= <-]. right. exists n, new.
              split; [ done | split; [ lia | split; [ lia | split ] ] ].
              ** rewrite list_lookup_insert_ne by lia. by apply list_lookup_middle.
              ** subst new. by rewrite kind_assignAll.
           ++ intros Hy. destruct (Ht y v Hy) as [ | (l & o & -> & ? & ? & Hl & ?) ];
                [ by left | ].
              right. exists l, o. split; [ done | split; [ done | split; [ done | ] ] ].
              split; [ | done ].
              rewrite list_lookup_insert_ne by done. by apply lookup_app_l_Some.
        -- rewrite list_lookup_insert_ne by done. by apply lookup_app_l_Some.
    + eapply preserved_trans; [ apply preserved_app | ].
      eapply preserved_insert; [ by apply lookup_app_l_Some | done ].
  - eexists. split;
      [ apply (share_present lodash s m a mo ao x shared ps d dobj
                 Hh Hstored Hdm Hda Hd Hdk Hsrc) | ].
    cbn [heap]. split.
    + destruct (decide (d = f)) as [ -> | Hdf ].
      * exists mo, ao, (Lodash.assignAll ps dobj). cbn [heap currentModel].
        split; [ constructor; cbn [heap currentModel]; auto;
                 by rewrite list_lookup_insert_ne | ].
        split; [ | split; [ done | split ] ].
        -- intros y v Hy. destruct (Ht y v Hy) as [ | (l & o & -> & ? & ? & Hl & ?) ];
             [ by left | ].
           right. destruct (decide (f = l)) as [ <- | Hne ].
           ++ exists f, (Lodash.assignAll ps dobj).
              split; [ done | split; [ done | split; [ done | split ] ] ].
              ** apply list_lookup_insert_eq. by eapply lookup_lt_Some.
              ** by rewrite kind_assignAll.
           ++ exists l, o. split; [ done | split; [ done | split; [ done | ] ] ].
              split; [ by rewrite list_lookup_insert_ne | done ].
        -- apply list_lookup_insert_eq. by eapply lookup_lt_Some.
        -- rewrite kind_assignAll. rewrite Hd in Hf. by injection Hf as ->.
      * exists mo, ao, fo. cbn [heap currentModel].
        split; [ constructor; cbn [heap currentModel]; auto;
                 by rewrite list_lookup_insert_ne | ].
        split; [ | split; [ done | split; [ by rewrite list_lookup_insert_ne | done ] ] ].
        intros y v Hy. destruct (Ht y v Hy) as [ | (l & o & -> & ? & ? & Hl & ?) ];
          [ by left | ].
        right. destruct (decide (d = l)) as [ <- | Hne ].
        -- exists d, (Lodash.assignAll ps dobj).
           split; [ done | split; [ done | split; [ done | split ] ] ].
           ++ apply list_lookup_insert_eq. by eapply lookup_lt_Some.
           ++ by rewrite kind_assignAll.
        -- exists l, o. split; [ done | split; [ done | split; [ done | ] ] ].
           split; [ by rewrite list_lookup_insert_ne | done ].
    + eapply preserved_insert; [ done | apply kind_assignAll ].
Qed.

Lemma share_loop ns : forall s m a name f body shared,
  Store.keepsFunction s m a name f body ->
  Store.mergeable (heap s) shared ->
  exists s',
    forEach (Part001.shareProperties lodash shared) (map VStr ns) s = Ok tt s'
    /\ Store.keepsFunction s' m a name f body.
Proof.
  induction ns as [ | x ns IH ]; intros s m a name f body shared Hk Hm.
  - exists s. split; [ reflexivity | done ].
  - destruct (share_keeps s m a name f body shared x Hk Hm) as (s1 & Hrun & Hk1 & Hp).
    destruct (IH s1 m a name f body shared Hk1 (mergeable_preserved _ _ _ Hp Hm))
      as (s2 & Hrun2 & Hk2).
    exists s2. split; [ | done ].
    cbn [map forEach]. rewrite (bind_ok _ _ _ _ _ Hrun). exact Hrun2.
Qed.

End Shared.

Section SharedOverload.
Context (lodash : Lodash.Major).

Lemma keepsFunction_view s m a name f body :
  Store.keepsFunction s m a name f body ->
  Store.attribute s name = Some (VRef f)
  /\ exists fo, heap s !! f = Some fo /\ kind fo = KFunction body.
Proof.
  intros (mo & ao & fo & Hh & _ & Hn & Hf & Hfk). split; [ | by exists fo ].
  unfold Store.attribute. by rewrite (holds_attributes_view _ _ _ _ _ Hh), Hn.
Qed.

(** Overload #3 of part_001, for any names and any shared properties. *)
Lemma attr_shared_keeps s m a name f body namesArg shared ns :
  Store.keepsFunction s m a name f body ->
  Store.names (heap s) namesArg = Some ns ->
  Store.mergeable (heap s) shared ->
  exists s',
    Part001.attr lodash [namesArg; shared] s = Ok RThis s'
    /\ Store.keepsFunction s' m a name f body.
Proof.
  intros Hk Hnames Hm. unfold Part001.attr. cbn [arg nth length Nat.eqb].
  destruct namesArg as [ | | | | x | l ]; try discriminate Hnames.
  - injection Hnames as <-.
    cbn [Lodash.isArray Lodash.isObject]. unfold bind at 1. unfold ret at 1.
    cbn [negb andb]. unfold bind at 1. unfold alloc at 1.
    destruct (share_loop lodash [x] _ m a name f body shared
                (keepsFunction_alloc s m a name f body [array [VStr x]] Hk)
                (mergeable_preserved _ _ _ (preserved_app _ _) Hm))
      as (s' & Hrun & Hk').
    exists s'. split; [ | done ].
    unfold Lodash.eachElement. unfold bind at 1. unfold bind at 1.
    erewrite deref_ok; [ | cbn [heap]; by apply list_lookup_middle ].
    cbn [kind array]. cbn [map] in Hrun. rewrite Hrun. reflexivity.
  - cbn [Store.names] in Hnames.
    destruct (heap s !! l) as [ o | ] eqn:Hl; [ | discriminate ].
    destruct (kind o) as [ | elems | ] eqn:Hko; try discriminate.
    apply strings_map in Hnames. subst elems.
    rewrite (bind_ok _ _ _ _ _ (isArray_ok _ _ _ Hl)). rewrite Hko.
    cbn [isArrayKind negb andb]. unfold bind at 1. unfold ret at 1.
    destruct (share_loop lodash ns s m a name f body shared Hk Hm) as (s' & Hrun & Hk').
    exists s'. split; [ | done ].
    unfold Lodash.eachElement. unfold bind at 1. unfold bind at 1.
    rewrite (deref_ok _ _ _ Hl), Hko, Hrun. reflexivity.
Qed.

(** [require] of part_001. *)
Lemma require_keeps s m a name f body arguments ao ns :
  Store.keepsFunction s m a name f body ->
  Store.attributes s = Some ao ->
  Store.required (heap s) ao arguments = Some ns ->
  exists s',
    Part001.require lodash arguments s = Ok RThis s'
    /\ Store.keepsFunction s' m a name f body.
Proof.
  intros Hk Hao Hreq.
  assert (Hnames : exists s1 namesArg,
            (if (length arguments =? 0)%nat
             then workingModel <- readModel ;;
                  attributes <- getProp workingModel "attributes" ;;
                  names <- Lodash.keys lodash attributes ;;
                  alloc (array (map VStr names))
             else isArr <- Lodash.isArray (arg 0 arguments) ;;
                  if isArr then ret (arg 0 arguments) else alloc (array arguments)) s
            = Ok namesArg s1
            /\ Store.keepsFunction s1 m a name f body
            /\ is_Some (Store.names (heap s1) namesArg)).
  { destruct arguments as [ | v rest ].
    - cbn [length Nat.eqb].
      destruct Hk as (mo & ao' & fo & Hh & Hrest).
      pose proof Hh as [H1 H2 H3 H4 H5 H6].
      rewrite (holds_attributes_view _ _ _ _ _ Hh) in Hao. injection Hao as ->.
      eexists _, _. split; [ | split ].
      + unfold bind at 1. unfold readModel at 1. rewrite H1.
        unfold bind at 1. rewrite (getProp_ok _ _ _ _ H2 H3), H4.
        unfold bind at 1. unfold Lodash.keys. unfold bind at 1.
        rewrite (sourceProps_ok lodash _ _ _ H5 H6). unfold ret at 1.
        unfold alloc. reflexivity.
      + apply keepsFunction_alloc. by exists mo, ao, fo.
      + cbn [heap Store.names]. rewrite list_lookup_middle by done.
        cbn [kind array]. rewrite strings_of_map. by eexists.
    - cbn [length Nat.eqb arg nth].
      destruct v as [ | | | | x | l ]; try discriminate Hreq.
      + cbn [Lodash.isArray]. unfold bind at 1. unfold ret at 1.
        eexists _, _. split; [ reflexivity | split ].
        * by apply keepsFunction_alloc.
        * cbn [heap Store.names]. rewrite list_lookup_middle by done.
          cbn [kind array]. cbn [Store.required] in Hreq. rewrite Hreq. by eexists.
      + cbn [Store.required] in Hreq. pose proof Hreq as Hreq'.
        cbn [Store.names] in Hreq'.
        destruct (heap s !! l) as [ o | ] eqn:Hl; [ | discriminate ].
        destruct (kind o) as [ | elems | ] eqn:Hko; try discriminate.
        rewrite (bind_ok _ _ _ _ _ (isArray_ok _ _ _ Hl)), Hko. cbn [isArrayKind].
        exists s, (VRef l). split; [ reflexivity | split; [ done | ] ].
        rewrite Hreq. by eexists. }
  destruct Hnames as (s1 & namesArg & Hrun1 & Hk1 & (ns1 & Hns1)).
  unfold Part001.require. rewrite (bind_ok _ _ _ _ _ Hrun1).
  unfold bind at 1. unfold alloc at 1.
  destruct (attr_shared_keeps _ m a name f body namesArg (VRef (length (heap s1))) ns1
              (keepsFunction_alloc s1 m a name f body
                 [object [("required", VBool true)]] Hk1))
    as (s' & Hrun & Hk').
  - cbn [heap]. destruct namesArg; try discriminate Hns1; [ done | ].
    cbn [Store.names] in *. destruct (heap s1 !! l) as [ o | ] eqn:Hl; [ | discriminate ].
    by rewrite (lookup_app_l_Some _ _ _ _ Hl).
  - cbn [heap]. intros l [= <-]. eexists. split; [ by apply list_lookup_middle | done ].
  - exists s'. split; [ | done ].
    rewrite (bind_ok _ _ _ _ _ Hrun). reflexivity.
Qed.

End SharedOverload.



(* ===================================================================== *)
(** * The two drafts compared                                             *)
(* ===================================================================== *)

Section Comparison.
Context (lodash : Lodash.Major).

Lemma step_same (op : Drafts.Op) (s : State) :
  Drafts.common op = true ->
  Drafts.stepSailsModelBuilder lodash op s = Drafts.stepPart001 lodash op s.
Proof.
  destruct op as [ arguments | | | arguments | arguments | arguments | arguments
                 | name handler | lifecycleName instance ];
    cbn [Drafts.common Drafts.stepSailsModelBuilder Drafts.stepPart001]; intros Hc;
    try reflexivity.
  - by apply create_model_same.
  - apply require_same.
  - apply attr_same_arity. by destruct (length arguments =? 3)%nat.
Qed.

End Comparison.

(** C5, as stated, fails: on a new builder the first key helper throws in
    sails-model-builder.js, where no model exists before [create], and
    succeeds in part_001, which starts from [{attributes: {}}]. *)
Lemma C5_counterexample :
  Drafts.fromNew SailsModelBuilder.newBuilder
    (Drafts.stepSailsModelBuilder Lodash.Lodash2) [Drafts.UuidKey] []
  = Err TypeError
  /\ Drafts.completes
       (Drafts.fromNew Part001.newBuilder
          (Drafts.stepPart001 Lodash.Lodash2) [Drafts.UuidKey] [])
     = true.
Proof. split; reflexivity. Qed.

(** C5, amended.  From any common state (same heap, same current model,
    same subscriptions), every chain of public operations that gives the
    setter a descriptor and does not call [attr] with exactly three
    arguments has the same outcome in both drafts: the same exception, or
    the same returned values and the same final state.  The lifecycle
    functions the two drafts install, and the closures they hand to the
    handlers, are the same functions. *)
Theorem C5_drafts_agree_on_common_operations
  (lodash : Lodash.Major) (ops : list Drafts.Op) (s : State) :
  Forall (fun op => Drafts.common op = true) ops ->
  Drafts.run (Drafts.stepSailsModelBuilder lodash) ops s
  = Drafts.run (Drafts.stepPart001 lodash) ops s
  /\ SailsModelBuilder.lifecycleCallback = Part001.lifecycleCallback
  /\ SailsModelBuilder.wrappedCb = Part001.wrappedCb
  /\ SailsModelBuilder.adopt = Part001.adopt.
Proof.
  intros Hops. split; [ | repeat split ].
  revert s. induction Hops as [ | op ops Hop _ IH ]; intros s; [ reflexivity | ].
  cbn [Drafts.run]. unfold bind at 1 3.
  rewrite (step_same lodash op s Hop).
  destruct (Drafts.stepPart001 lodash op s) as [ r s1 | ]; [ | reflexivity ].
  unfold bind. by rewrite IH.
Qed.

(** C5 on a chain that sets a model, adds a key, describes and requires
    attributes, subscribes a handler and fires a lifecycle. *)
Lemma C5_witness :
  let s := mkState [ object [("tableName", VStr "users")];
                     object [("type", VStr "string")] ]
             VUndefined Mayordomo.empty in
  let ops := [ Drafts.SetModel [VRef 0]; Drafts.UuidKey;
               Drafts.Attr [VStr "name"; VRef 1]; Drafts.Require [];
               Drafts.On "beforeCreate" (mkHandler 1 (fun _ => CallCb [] Return));
               Drafts.Fire "beforeCreate" VNull; Drafts.GetModel ] in
  Drafts.run (Drafts.stepSailsModelBuilder Lodash.Lodash3) ops s
  = Drafts.run (Drafts.stepPart001 Lodash.Lodash3) ops s.
Proof.
  intros s ops.
  apply (C5_drafts_agree_on_common_operations Lodash.Lodash3 ops s).
  repeat constructor.
Defined.

(** C6 does not hold in src/sails-model-builder.js.  There the branch for
    three arguments lacks the [return this] that part_001 has, so the call
    goes on into the shared-properties loop with the property name as the
    "shared properties"; with lodash 3 [_.extend] copies the characters of
    that name into the descriptor.  On a store without attributes,
    [attr('a', 'type', 'integer')] leaves under "a" an object with five
    properties in sails-model-builder.js, and exactly [{type: 'integer'}]
    in part_001 (and in sails-model-builder.js with lodash 2, whose
    [_.extend] skips a string). *)
Theorem C6_three_arguments_fall_through :
  let s := mkState [ object []; object [("attributes", VRef 0)] ]
             (VRef 1) Mayordomo.empty in
  let arguments := [VStr "a"; VStr "type"; VStr "integer"] in
  (exists s' d,
     SailsModelBuilder.attr Lodash.Lodash3 arguments s = Ok RThis s'
     /\ Store.descriptor s' "a" = Some d
     /\ readP "type" d = VStr "integer"
     /\ readP "0" d = VStr "t" /\ readP "1" d = VStr "y"
     /\ readP "2" d = VStr "p" /\ readP "3" d = VStr "e"
     /\ length (props d) = 5)
  /\ (exists s',
        Part001.attr Lodash.Lodash3 arguments s = Ok RThis s'
        /\ Store.descriptor s' "a" = Some (object [("type", VStr "integer")]))
  /\ (exists s',
        SailsModelBuilder.attr Lodash.Lodash2 arguments s = Ok RThis s'
        /\ Store.descriptor s' "a" = Some (object [("type", VStr "integer")])).
Proof.
  intros s arguments. split; [ | split ].
  - eexists _, _. split; [ vm_compute; reflexivity | ].
    split; [ vm_compute; reflexivity | ]. repeat split.
  - eexists. split; [ vm_compute; reflexivity | reflexivity ].
  - eexists. split; [ vm_compute; reflexivity | reflexivity ].
Qed.

(** In part_001 the call with three arguments does what C6 says, for every
    store, name, property and value, and whatever the lodash: it sets that
    one property in the descriptor stored under the name, or in a new
    object stored under it when there was none, and changes nothing else. *)
Lemma attr_three_arguments_part001
  (lodash : Lodash.Major) (s : State) (m a : loc) (mo ao : Obj)
  (name key : string) (value : Value) :
  Store.holds s m a mo ao ->
  (truthy (readP name ao) = false ->
   Part001.attr lodash [VStr name; VStr key; value] s =
   Ok RThis (mkState (<[a := writeP name (VRef (length (heap s))) ao]>
                        (heap s ++ [object [(key, value)]]))
                     (currentModel s) (events s)))
  /\ (forall d dobj,
        readP name ao = VRef d -> d <> m -> d <> a ->
        heap s !! d = Some dobj -> isArrayKind (kind dobj) = false ->
        Part001.attr lodash [VStr name; VStr key; value] s =
        Ok RThis (mkState (<[d := writeP key value dobj]> (heap s))
                          (currentModel s) (events s))).
Proof.
  intros Hh. split.
  - intros Hfalsy. by apply (attr3_absent lodash s m a mo ao).
  - intros d dobj Hstored Hdm Hda Hd Hdk. by apply (attr3_present lodash s m a mo ao).
Qed.

(* ===================================================================== *)
(** * Further properties of the lifecycle dispatcher                      *)
(* ===================================================================== *)

Section EventLoop.

Lemma continuedWith_app (l1 l2 : list Event) :
  continuedWith (l1 ++ l2) = continuedWith l1 ++ continuedWith l2.
Proof.
  induction l1 as [ | [h | args] l1 IH ]; simpl; [ done | done | by rewrite IH ].
Qed.

Lemma forwarded_quiet (s : Script) :
  adoptsNow s = false -> Pass.forwarded s = [].
Proof. induction s; simpl; intros H; try done; auto. Qed.

Lemma events_quiet (instance : Value) (hs : list Handler) :
  Pass.adopted instance hs = false ->
  continuedWith (Pass.events instance hs) = [].
Proof.
  induction hs as [ | h hs IH ]; simpl; [ done | ].
  intros H. apply orb_false_iff in H as [H1 H2].
  rewrite continuedWith_app, (forwarded_quiet _ H1). simpl. by apply IH.
Qed.

(** One turn, with the closures of the lifecycle function. *)
Lemma turn_wrapped (f : Frame) (t : Script) (rest : list Script) :
  deferred f = t :: rest ->
  turn Part001.wrappedCb Part001.adopt f =
  mkFrame (if adoptsNow t then VBool false else orphanCallback f)
          (log f ++ Pass.forwarded t)
          (rest ++ Pass.started t).
Proof. intros H. unfold turn. rewrite H. by rewrite exec_wrapped. Qed.

(** A queue of tasks that start no further work is drained in as many
    turns as it has tasks; the continuation receives their calls in order. *)
Lemma turns_drain (q : list Script) : forall f,
  deferred f = q ->
  (forall t, In t q -> Pass.started t = []) ->
  log (Loop.turns (length q) Part001.wrappedCb Part001.adopt f)
  = log f ++ flat_map Pass.forwarded q
  /\ deferred (Loop.turns (length q) Part001.wrappedCb Part001.adopt f) = [].
Proof.
  induction q as [ | t q IH ]; intros f Hq Hst; simpl.
  - by rewrite app_nil_r.
  - rewrite (turn_wrapped f t q Hq).
    rewrite (Hst t (or_introl eq_refl)), app_nil_r.
    destruct (IH (mkFrame (if adoptsNow t then VBool false else orphanCallback f)
                          (log f ++ Pass.forwarded t) q) eq_refl
                 (fun t' H => Hst t' (or_intror H))) as [Hl Hd].
    rewrite Hl, Hd. simpl. by rewrite <- app_assoc.
Qed.

Lemma exec_silent (s : Script) : forall f,
  Loop.silent s = true ->
  continuedWith (log (exec Part001.wrappedCb Part001.adopt s f)) = continuedWith (log f)
  /\ exists more,
       deferred (exec Part001.wrappedCb Part001.adopt s f) = deferred f ++ more
       /\ forallb Loop.silent more = true.
Proof.
  induction s as [ | k IH | args k IH | task IHt k IH ]; intros f Hs; simpl in *.
  - split; [ done | ]. exists []. by rewrite app_nil_r.
  - destruct (IH (Part001.adopt f) Hs) as (Hl & more & Hd & Hm).
    split; [ by rewrite Hl | ]. by exists more.
  - discriminate.
  - apply andb_true_iff in Hs as [Hs1 Hs2].
    destruct (IH (mkFrame (orphanCallback f) (log f) (deferred f ++ [task])) Hs2)
      as (Hl & more & Hd & Hm).
    split; [ by rewrite Hl | ].
    exists (task :: more). simpl in *. rewrite Hd, <- app_assoc. simpl.
    split; [ done | by rewrite Hs1, Hm ].
Qed.

Lemma turns_silent (n : nat) : forall f,
  forallb Loop.silent (deferred f) = true ->
  continuedWith (log (Loop.turns n Part001.wrappedCb Part001.adopt f))
  = continuedWith (log f).
Proof.
  induction n as [ | n IH ]; intros f Hq; simpl; [ done | ].
  unfold turn. destruct (deferred f) as [ | t rest ] eqn:E.
  - apply IH. by rewrite E.
  - simpl in Hq. apply andb_true_iff in Hq as [Ht Hrest].
    destruct (exec_silent t (mkFrame (orphanCallback f) (log f) rest) Ht)
      as (Hl & more & Hd & Hm).
    rewrite IH; [ exact Hl | ].
    rewrite Hd. simpl. rewrite forallb_app. by rewrite Hrest, Hm.
Qed.

Lemma tasks_silent (instance : Value) (hs : list Handler) :
  (forall h, In h hs -> Loop.silent (handlerBody h instance) = true) ->
  forallb Loop.silent (Pass.tasks instance hs) = true
  /\ continuedWith (Pass.events instance hs) = [].
Proof.
  assert (Hs : forall s, Loop.silent s = true ->
            forallb Loop.silent (Pass.started s) = true /\ Pass.forwarded s = []).
  { induction s as [ | k IH | args k IH | task IHt k IH ]; simpl; intros H; auto.
    - discriminate.
    - apply andb_true_iff in H as [H1 H2]. destruct (IH H2) as [-> ->].
      by rewrite H1. }
  induction hs as [ | h hs IH ]; intros Hall; simpl; [ done | ].
  destruct (Hs _ (Hall h (or_introl eq_refl))) as [H1 H2].
  destruct (IH (fun h' H => Hall h' (or_intror H))) as [H3 H4].
  unfold Pass.tasks in *. simpl. rewrite forallb_app, H1, H3.
  split; [ done | ]. rewrite continuedWith_app, H2. exact H4.
Qed.

Lemma adopters_pass (instance : Value) (l : list (nat * list Value)) :
  let hs := map (fun p => Loop.adopter (fst p) (snd p)) l in
  Pass.events instance hs = map (fun p => Ran (fst p)) l
  /\ Pass.tasks instance hs = map (fun p => CallCb (snd p) Return) l
  /\ (l <> [] -> Pass.adopted instance hs = true).
Proof.
  induction l as [ | [id args] l IH ]; simpl; [ done | ].
  destruct IH as (H1 & H2 & H3). unfold Pass.events, Pass.tasks in *. simpl.
  by rewrite H1, H2.
Qed.

End EventLoop.

(** X1.  Asynchronous work without [adopt()] invokes the continuation
    twice.  In either draft, when no handler adopts during the pass, the
    lifecycle function invokes the continuation once, without arguments, as
    the pass ends; the first asynchronous task that runs afterwards still
    holds the wrapped continuation, and every call it makes reaches the
    continuation again. *)
Theorem X1_late_call_continues_again
  (d : Dispatcher) (eventManager : Mayordomo.Registry) (lifecycleName : string)
  (instance : Value) (task : Script) (rest : list Script) :
  In d dispatchers ->
  Mayordomo.handlersOf lifecycleName eventManager <> [] ->
  let hs := Mayordomo.handlersOf lifecycleName eventManager in
  Pass.adopted instance hs = false ->
  Pass.tasks instance hs = task :: rest ->
  let f := callback d eventManager lifecycleName instance in
  continuedWith (log f) = [[]]
  /\ continuedWith (log (turn (wrapped d) (adopting d) f))
     = [] :: continuedWith (Pass.forwarded task)
  /\ (forall args k, task = CallCb args k ->
        2 <= length (continuedWith (log (turn (wrapped d) (adopting d) f)))).
Proof.
  intros Hin Hne hs Hquiet Htasks f. subst f.
  rewrite (dispatchers_alike d Hin). cbn [callback wrapped adopting].
  rewrite (callback_with_handlers _ _ _ Hne). fold hs. rewrite Hquiet, Htasks.
  assert (Hturn : continuedWith
            (log (turn Part001.wrappedCb Part001.adopt
                    (mkFrame (VBool (negb false))
                       (Pass.events instance hs ++ [Continued []]) (task :: rest))))
            = [] :: continuedWith (Pass.forwarded task)).
  { erewrite turn_wrapped by reflexivity. cbn [log].
    rewrite !continuedWith_app, (events_quiet _ _ Hquiet). reflexivity. }
  split; [ | split ].
  - cbn [log]. by rewrite continuedWith_app, (events_quiet _ _ Hquiet).
  - exact Hturn.
  - intros args k ->. rewrite Hturn. simpl. lia.
Qed.

Lemma X1_witness :
  let h := mkHandler 3 (fun _ => Defer (CallCb [VStr "hashed"] Return) Return) in
  let f := Part001.lifecycleCallback (Mayordomo.on "beforeCreate" h Mayordomo.empty)
             "beforeCreate" VNull in
  continuedWith (log f) = [[]]
  /\ continuedWith (log (turn Part001.wrappedCb Part001.adopt f))
     = [[]; [VStr "hashed"]].
Proof.
  intros h f.
  destruct (X1_late_call_continues_again
              (mkDispatcher Part001.lifecycleCallback Part001.wrappedCb Part001.adopt)
              (Mayordomo.on "beforeCreate" h Mayordomo.empty) "beforeCreate" VNull
              (CallCb [VStr "hashed"] Return) [])
    as (H1 & H2 & _).
  - left. reflexivity.
  - simpl. discriminate.
  - reflexivity.
  - reflexivity.
  - split; [ exact H1 | exact H2 ].
Defined.

(** X2.  No timeout.  In either draft, when some handler adopts during the
    pass and no handler ever calls the continuation (neither before it
    returns nor from the asynchronous work it starts), the continuation is
    never invoked, however many turns the event loop takes. *)
Theorem X2_adopted_and_dropped_never_continues
  (d : Dispatcher) (eventManager : Mayordomo.Registry) (lifecycleName : string)
  (instance : Value) (n : nat) :
  In d dispatchers ->
  let hs := Mayordomo.handlersOf lifecycleName eventManager in
  Pass.adopted instance hs = true ->
  (forall h, In h hs -> Loop.silent (handlerBody h instance) = true) ->
  let f := callback d eventManager lifecycleName instance in
  continuedWith (log (Loop.turns n (wrapped d) (adopting d) f)) = [].
Proof.
  intros Hin hs Hadopted Hsilent f. subst f.
  rewrite (dispatchers_alike d Hin). cbn [callback wrapped adopting].
  assert (Hne : Mayordomo.handlersOf lifecycleName eventManager <> []).
  { fold hs. intros E. rewrite E in Hadopted. discriminate. }
  rewrite (callback_with_handlers _ _ _ Hne). fold hs. rewrite Hadopted.
  destruct (tasks_silent instance hs Hsilent) as [Hq Hev].
  rewrite turns_silent by exact Hq.
  cbn [log]. by rewrite app_nil_r.
Qed.

Lemma X2_witness :
  let h := mkHandler 1 (fun _ => CallAdopt (Defer (CallAdopt Return) Return)) in
  continuedWith
    (log (Loop.turns 5 SailsModelBuilder.wrappedCb SailsModelBuilder.adopt
            (SailsModelBuilder.lifecycleCallback
               (Mayordomo.on "afterCreate" h Mayordomo.empty) "afterCreate" VNull)))
  = [].
Proof.
  intros h.
  apply (X2_adopted_and_dropped_never_continues
           (mkDispatcher SailsModelBuilder.lifecycleCallback
              SailsModelBuilder.wrappedCb SailsModelBuilder.adopt)
           (Mayordomo.on "afterCreate" h Mayordomo.empty) "afterCreate" VNull 5).
  - right. left. reflexivity.
  - reflexivity.
  - intros h' [<- | []]. reflexivity.
Defined.



(* ===================================================================== *)
(** * Further properties of the builder                                   *)
(* ===================================================================== *)

Section NewBuilder.

Lemma newBuilder_run (h : Heap) :
  Part001.newBuilder (Drafts.blank h) =
  Ok tt (mkState (h ++ [object []; object [("attributes", VRef (length h))]])
                 (VRef (S (length h))) Mayordomo.empty).
Proof.
  unfold Part001.newBuilder, Drafts.blank, bind, alloc, writeModel.
  cbn [heap currentModel events]. rewrite length_app. cbn [length].
  replace (length h + 1) with (S (length h)) by lia.
  by rewrite <- app_assoc.
Qed.

Lemma create_without_descriptor arguments s :
  truthy (arg 0 arguments) = false ->
  SailsModelBuilder.create arguments s =
  SailsModelBuilder.create [VRef (length (heap s))]
    (mkState (heap s ++ [object []]) (currentModel s) (events s)).
Proof.
  intros Hfalsy. unfold SailsModelBuilder.create. cbn [arg nth truthy negb].
  rewrite Hfalsy. cbn [negb]. reflexivity.
Qed.

End NewBuilder.

(** X4.  A new builder of part_001 has a model, but no lifecycle function.
    On any heap of the caller, [require('...')()] leaves the caller's
    objects alone and makes a working model [{attributes: {}}]; since only
    the setter [model(descriptor)] runs [setupLifecycleEvents], every
    lifecycle name of that model is undefined, and calling one, even after
    a handler was subscribed to it, throws a TypeError. *)
Theorem X4_new_builder_has_no_lifecycle_function
  (h : Heap) (lifecycleName : string) (handler : Handler) (instance : Value) :
  exists s,
    Part001.newBuilder (Drafts.blank h) = Ok tt s
    /\ Store.holds s (S (length h)) (length h)
         (object [("attributes", VRef (length h))]) (object [])
    /\ (forall l o, h !! l = Some o -> heap s !! l = Some o)
    /\ (In lifecycleName Part001.lifecycles ->
        Store.modelProperty s lifecycleName = Some VUndefined)
    /\ (Part001.on lifecycleName handler ;; Part001.fire lifecycleName instance) s
       = Err TypeError.
Proof.
  eexists. split; [ apply newBuilder_run | ].
  assert (Hm : (h ++ [object []; object [("attributes", VRef (length h))]])
               !! S (length h) = Some (object [("attributes", VRef (length h))])).
  { rewrite lookup_app_r by lia. by replace (S (length h) - length h) with 1 by lia. }
  assert (Ha : (h ++ [object []; object [("attributes", VRef (length h))]])
               !! length h = Some (object [])).
  { by apply list_lookup_middle. }
  split; [ constructor; cbn [heap currentModel]; done | ].
  split; [ intros l o Hl; by apply lookup_app_l_Some | ].
  split.
  - intros Hin. unfold Store.modelProperty. cbn [heap currentModel]. rewrite Hm.
    f_equal. unfold readP. cbn [props object getP].
    destruct ("attributes" =? lifecycleName)%string eqn:E; [ | done ].
    apply String.eqb_eq in E. subst lifecycleName.
    by destruct attributes_not_lifecycle.
  - unfold bind at 1. unfold Part001.on. cbn [heap currentModel events].
    unfold Part001.fire. unfold bind at 1. unfold readModel. cbn [currentModel].
    unfold bind at 1. erewrite getProp_ok; [ | cbn [heap]; exact Hm | reflexivity ].
    unfold readP. cbn [props object getP].
    destruct ("attributes" =? lifecycleName)%string; [ | reflexivity ].
    unfold bind. erewrite deref_ok; [ | cbn [heap]; exact Ha ]. reflexivity.
Qed.

(** X5.  A builder of sails-model-builder.js has no model before [create].
    While [modelBuilder.currentModel] is undefined, [model()] returns
    undefined and changes nothing, and the key helpers, [require()],
    [require(name, ...)], [attr(name, properties)], [attr(name, key, value)]
    and a lifecycle call all throw a TypeError. *)
Theorem X5_sails_builder_needs_create
  (lodash : Lodash.Major) (s : State) (name key : string) (v : Value)
  (rest : list Value) :
  currentModel s = VUndefined ->
  SailsModelBuilder.model rest s = Ok (RValue VUndefined) s
  /\ SailsModelBuilder.uuidKey s = Err TypeError
  /\ SailsModelBuilder.intKey rest s = Err TypeError
  /\ SailsModelBuilder.require lodash [] s = Err TypeError
  /\ SailsModelBuilder.require lodash (VStr name :: rest) s = Err TypeError
  /\ SailsModelBuilder.attr lodash [VStr name; v] s = Err TypeError
  /\ SailsModelBuilder.attr lodash [VStr name; VStr key; v] s = Err TypeError
  /\ SailsModelBuilder.fire name v s = Err TypeError.
Proof.
  intros Hnone. destruct s as [h cm ev]. cbn [currentModel] in Hnone. subst cm.
  assert (Hshare : forall shared h',
            Lodash.eachElement (VRef (length h))
              (SailsModelBuilder.shareProperties lodash shared)
              (mkState ((h ++ [array (VStr name :: rest)]) ++ h') VUndefined ev)
            = Err TypeError).
  { intros shared h'. unfold Lodash.eachElement. unfold bind at 1.
    erewrite deref_ok;
      [ | cbn [heap]; rewrite <- app_assoc; by apply list_lookup_middle ].
    reflexivity. }
  repeat split; try reflexivity.
  - unfold SailsModelBuilder.require. cbn [length Nat.eqb arg nth Lodash.isArray].
    unfold bind at 1. unfold bind at 1. unfold ret at 1. unfold alloc at 1.
    cbn [heap currentModel events].
    unfold bind at 1. unfold alloc at 1. cbn [heap currentModel events].
    unfold SailsModelBuilder.attr.
    cbn [length Nat.eqb arg nth Lodash.isObject].
    unfold bind at 1.
    erewrite isArray_ok; [ | cbn [heap]; apply lookup_app_l_Some; by apply list_lookup_middle ].
    cbn [kind array isArrayKind negb andb].
    unfold bind, ret. by rewrite Hshare.
  - unfold SailsModelBuilder.attr.
    cbn [length Nat.eqb arg nth Lodash.isArray Lodash.isObject].
    unfold bind at 1. unfold ret at 1. cbn [negb andb].
    unfold bind, ret, alloc. cbn [heap currentModel events].
    unfold Lodash.eachElement, bind.
    erewrite deref_ok; [ | cbn [heap]; by apply list_lookup_middle ]. reflexivity.
Qed.

Lemma X5_witness :
  SailsModelBuilder.attr Lodash.Lodash2 [VStr "name"; VStr "type"; VStr "string"]
    (Drafts.blank [])
  = Err TypeError.
Proof.
  apply (X5_sails_builder_needs_create Lodash.Lodash2 (Drafts.blank [])
           "name" "type" (VStr "string") []).
  reflexivity.
Defined.

(** X6.  [create()] of sails-model-builder.js without a descriptor (or with
    a falsy one) starts a new model: it returns the builder, the current
    model is an object created by the call, with a new empty [attributes]
    object and the eight lifecycle functions and nothing else; every
    object that existed before, the previous model included, is
    unchanged. *)
Theorem X6_create_without_descriptor_starts_afresh
  (arguments : list Value) (s : State) :
  truthy (arg 0 arguments) = false ->
  let n := length (heap s) in
  exists s' mo',
    SailsModelBuilder.create arguments s = Ok RThis s'
    /\ currentModel s' = VRef n
    /\ events s' = events s
    /\ Store.holds s' n (S n) mo' (object [])
    /\ (forall lc, In lc SailsModelBuilder.lifeCycles ->
          exists fn, readP lc mo' = VRef fn /\ n < fn
                     /\ heap s' !! fn = Some (function (LifecycleCallback lc)))
    /\ (forall key, key <> "attributes" -> ~ In key SailsModelBuilder.lifeCycles ->
          readP key mo' = VUndefined)
    /\ (forall l o, heap s !! l = Some o -> heap s' !! l = Some o).
Proof.
  intros Hfalsy n.
  rewrite (create_without_descriptor _ _ Hfalsy).
  rewrite create_model_same by reflexivity. fold n.
  set (s1 := mkState (heap s ++ [object []]) (currentModel s) (events s)).
  assert (Hn : heap s1 !! n = Some (object [])) by (by apply list_lookup_middle).
  rewrite (model_run _ [] s1 n (object []) eq_refl Hn eq_refl).
  subst s1. cbn [readP props object getP truthy negb length heap events].
  assert (Hlen1 : length (heap s ++ [object []]) = S n)
    by (rewrite length_app; cbn [length]; subst n; lia).
  rewrite Hlen1. replace (S n + 1) with (S (S n)) by lia.
  set (mo1 := writeP "attributes" (VRef (S n)) (object [])).
  set (mo' := Store.wire (S (S n)) Part001.lifecycles mo1).
  set (h' := ((heap s ++ [object []]) ++ [object []])
             ++ Store.callbacks Part001.lifecycles).
  assert (Hlen : length h' = S (S n) + 8).
  { subst h'. rewrite !length_app. cbn [length]. fold n. cbn. lia. }
  assert (Hm' : <[n := mo']> h' !! n = Some mo')
    by (apply list_lookup_insert_eq; lia).
  assert (Ha' : <[n := mo']> h' !! S n = Some (object [])).
  { rewrite list_lookup_insert_ne by lia. subst h'.
    apply lookup_app_l_Some. rewrite <- Hlen1. by apply list_lookup_middle. }
  exists (mkState (<[n := mo']> h') (VRef n) (events s)), mo'.
  cbn [heap currentModel events].
  split; [ done | split; [ done | split; [ done | ] ] ].
  split; [ | split; [ | split ] ].
  - constructor; cbn [heap currentModel]; done.
  - intros lc Hlc.
    destruct (readP_wire lc Part001.lifecycles (S (S n)) mo1 lifecycles_NoDup Hlc)
      as (i & Hi & Hl & Hr).
    exists (S (S n) + i). split; [ done | split; [ lia | ] ].
    rewrite list_lookup_insert_ne by lia. subst h'.
    rewrite lookup_app_r by (rewrite !length_app; cbn [length]; fold n; lia).
    rewrite !length_app. cbn [length]. fold n.
    replace (S (S n) + i - (n + 1 + 1)) with i by lia.
    by apply callbacks_lookup.
  - intros key Hkey Hnot. subst mo'. rewrite readP_wire_other by done.
    subst mo1. by rewrite readP_writeP_ne.
  - intros l o Hl. rewrite list_lookup_insert_ne
      by (apply lookup_lt_Some in Hl; fold n in Hl; lia).
    subst h'. rewrite <- !app_assoc. by apply lookup_app_l_Some.
Qed.

Lemma X6_witness :
  exists s' mo',
    SailsModelBuilder.create [] (Drafts.blank [object [("name", VStr "x")]])
    = Ok RThis s'
    /\ currentModel s' = VRef 1
    /\ Store.holds s' 1 2 mo' (object []).
Proof.
  destruct (X6_create_without_descriptor_starts_afresh []
              (Drafts.blank [object [("name", VStr "x")]]) eq_refl)
    as (s' & mo' & H1 & H2 & _ & H4 & _).
  exists s', mo'. auto.
Defined.

(** X7.  In part_001 an explicit [undefined] or [null] is not "no
    argument": [model(undefined)] and [model(null)] take the setter branch
    and throw a TypeError on reading [attributes], whereas [model()] is the
    getter and returns the working model without changing anything.  The
    setter and the getter of the two drafts round-trip: after the setter
    was given a descriptor object, the getter returns that same object. *)
Theorem X7_getter_and_setter_without_descriptor
  (lodash : Lodash.Major) (b : Builder) (s : State) (m : loc) (mo : Obj)
  (rest : list Value) :
  In b (drafts lodash) ->
  heap s !! m = Some mo ->
  isArrayKind (kind mo) = false ->
  Part001.model (VUndefined :: rest) s = Err TypeError
  /\ Part001.model (VNull :: rest) s = Err TypeError
  /\ Part001.model [] s = Ok (RValue (currentModel s)) s
  /\ (forall arguments,
        SailsModelBuilder.model arguments s = Ok (RValue (currentModel s)) s)
  /\ exists s',
       setModel b (VRef m :: rest) s = Ok RThis s'
       /\ Part001.model [] s' = Ok (RValue (VRef m)) s'
       /\ SailsModelBuilder.model rest s' = Ok (RValue (VRef m)) s'.
Proof.
  intros Hin Hm Hk.
  split; [ reflexivity | split; [ reflexivity | split; [ reflexivity | ] ] ].
  split; [ reflexivity | ].
  assert (Hb : setModel b (VRef m :: rest) s = Part001.model (VRef m :: rest) s).
  { destruct Hin as [<- | [<- | []]]; [ reflexivity | ].
    by apply create_model_same. }
  rewrite Hb, (model_run _ rest s m mo eq_refl Hm Hk).
  eexists. split; [ reflexivity | split; reflexivity ].
Qed.

Lemma X7_witness :
  exists s',
    Part001.model [VRef 0] (Drafts.blank [object []]) = Ok RThis s'
    /\ Part001.model [] s' = Ok (RValue (VRef 0)) s'.
Proof.
  destruct (X7_getter_and_setter_without_descriptor Lodash.Lodash2
              (part001 Lodash.Lodash2) (Drafts.blank [object []]) 0 (object []) [])
    as (_ & _ & _ & _ & s' & H1 & H2 & _).
  - left. reflexivity.
  - reflexivity.
  - reflexivity.
  - exists s'. auto.
Defined.

Section Exporting.

Lemma export_run s to tobj rest :
  heap s !! to = Some tobj -> isArrayKind (kind tobj) = false ->
  Part001.export (VRef to :: rest) s =
  Ok RThis (mkState (<[to := writeP "exports" (currentModel s) tobj]> (heap s))
                    (currentModel s) (events s)).
Proof.
  intros Hto Hk. unfold Part001.export. cbn [arg nth].
  unfold bind at 1. unfold readModel at 1.
  unfold bind at 1. by rewrite (setProp_ok _ _ _ _ _ Hto Hk).
Qed.

End Exporting.

(** X8.  [export(to)] hands over a reference to the current model, not a
    copy.  In either draft it returns the builder and sets [to.exports] to
    the model, changing nothing else; without an argument it throws a
    TypeError.  Because the module and the builder share the one object,
    [export] may come anywhere in the chain: exporting and then adding the
    UUID key leaves the same state as adding the key and then exporting,
    and in both orders [to.exports] is the model that has the key. *)
Theorem X8_export_shares_the_model
  (export : list Value -> M Ret) (uuidKey : M Ret)
  (s : State) (m a : loc) (mo ao : Obj) (to : loc) (tobj : Obj) (rest : list Value) :
  In (export, uuidKey) exporters ->
  Store.holds s m a mo ao ->
  heap s !! to = Some tobj ->
  isArrayKind (kind tobj) = false ->
  to <> a ->
  export (VRef to :: rest) s =
    Ok RThis (mkState (<[to := writeP "exports" (VRef m) tobj]> (heap s))
                      (currentModel s) (events s))
  /\ export [] s = Err TypeError
  /\ exists s2 tobj2,
       (export (VRef to :: rest) ;; uuidKey) s = Ok RThis s2
       /\ (uuidKey ;; export (VRef to :: rest)) s = Ok RThis s2
       /\ heap s2 !! to = Some tobj2
       /\ readP "exports" tobj2 = VRef m
       /\ currentModel s2 = VRef m
       /\ Store.attribute s2 "id" = Some (VRef (S (length (heap s)))).
Proof.
  intros Hin Hh Hto Hk Hta.
  assert (He : export = Part001.export /\ uuidKey = Part001.uuidKey).
  { destruct Hin as [ [= <- <-] | [ [= <- <-] | [] ] ]; split; reflexivity. }
  destruct He as [-> ->].
  pose proof Hh as [H1 H2 H3 H4 H5 H6].
  assert (Hlt : to < length (heap s)) by (by eapply lookup_lt_Some).
  assert (Ha : a < length (heap s)) by (by eapply lookup_lt_Some).
  set (tobj' := writeP "exports" (VRef m) tobj).
  set (s1 := mkState (<[to := tobj']> (heap s)) (currentModel s) (events s)).
  assert (Hrun1 : Part001.export (VRef to :: rest) s = Ok RThis s1).
  { rewrite (export_run _ _ _ _ Hto Hk). subst s1 tobj'. by rewrite H1. }
  split; [ exact Hrun1 | ].
  split.
  { unfold Part001.export. cbn [arg nth]. unfold bind at 1. unfold readModel at 1.
    reflexivity. }
  (* the model after the export *)
  assert (Hh1 : exists mo1, Store.holds s1 m a mo1 ao).
  { destruct (decide (to = m)) as [ -> | Hne ].
    - exists tobj'. rewrite H2 in Hto. injection Hto as <-.
      constructor; subst s1; cbn [heap currentModel]; try done.
      + by apply list_lookup_insert_eq.
      + subst tobj'. by rewrite readP_writeP_ne by discriminate.
      + by rewrite list_lookup_insert_ne by done.
    - exists mo. constructor; subst s1; cbn [heap currentModel]; try done;
        by rewrite list_lookup_insert_ne by done. }
  destruct Hh1 as (mo1 & Hh1).
  set (n := length (heap s)).
  set (ps := [ ("type", VStr "string"); ("unique", VBool true);
               ("primaryKey", VBool true); ("defaultsTo", VRef n) ]).
  set (ao' := writeP "id" (VRef (S n)) ao).
  set (h2 := <[a := ao']> (<[to := tobj']> (heap s ++ [function UuidV4] ++ [object ps]))).
  exists (mkState h2 (VRef m) (events s)), tobj'.
  assert (Hleft : (Part001.export (VRef to :: rest) ;; Part001.uuidKey) s
                  = Ok RThis (mkState h2 (VRef m) (events s))).
  { rewrite (bind_ok _ _ _ _ _ Hrun1), (uuidKey_run _ _ _ _ _ Hh1).
    subst s1 h2. cbn [heap currentModel events]. rewrite length_insert, H1.
    fold n. fold ps. fold ao'. by rewrite (insert_app_l (heap s) _ to) by done. }
  assert (Hright : (Part001.uuidKey ;; Part001.export (VRef to :: rest)) s
                   = Ok RThis (mkState h2 (VRef m) (events s))).
  { rewrite (bind_ok _ _ _ _ _ (uuidKey_run _ _ _ _ _ Hh)).
    fold n. fold ps. fold ao'.
    erewrite export_run; [ | cbn [heap]; rewrite list_lookup_insert_ne by done;
                             by apply lookup_app_l_Some | exact Hk ].
    cbn [heap currentModel events]. rewrite H1. fold tobj'. subst h2.
    by rewrite list_insert_insert_ne. }
  split; [ exact Hleft | split; [ exact Hright | ] ].
  cbn [heap currentModel].
  assert (Hto2 : h2 !! to = Some tobj').
  { subst h2. rewrite list_lookup_insert_ne by done.
    apply list_lookup_insert_eq. rewrite length_app. lia. }
  split; [ exact Hto2 | ].
  split; [ subst tobj'; apply readP_writeP_eq | ].
  split; [ done | ].
  unfold Store.attribute.
  assert (Hattrs : Store.attributes (mkState h2 (VRef m) (events s)) = Some ao').
  { subst h2. apply (attributes_view _ m a mo1 ao').
    - by destruct Hh1.
    - intros Hne. destruct Hh1 as [_ Hm1 _ _ _ _]. subst s1. cbn [heap] in Hm1.
      rewrite (insert_app_l (heap s) _ to) by done. by apply lookup_app_l_Some.
    - intros ->. subst ao'. rewrite readP_writeP_ne by discriminate.
      rewrite H2 in H5. injection H5 as ->. exact H4.
    - rewrite length_insert, length_app. lia. }
  rewrite Hattrs. subst ao'. by rewrite readP_writeP_eq.
Qed.

Lemma X8_witness :
  let s := mkState [ object [("attributes", VRef 1)]; object []; object [] ]
             (VRef 0) Mayordomo.empty in
  (Part001.export [VRef 2] ;; Part001.uuidKey) s
  = (Part001.uuidKey ;; Part001.export [VRef 2]) s.
Proof.
  intros s.
  destruct (X8_export_shares_the_model Part001.export Part001.uuidKey s 0 1
              (object [("attributes", VRef 1)]) (object []) 2 (object []) [])
    as (_ & _ & s2 & tobj2 & H1 & H2 & _).
  - left. reflexivity.
  - constructor; reflexivity.
  - reflexivity.
  - reflexivity.
  - discriminate.
  - rewrite H1, H2. reflexivity.
Defined.

Section Copies.
Context (lodash : Lodash.Major).

Lemma replicate_snoc {A} (n : nat) (x : A) : [x] ++ replicate n x = replicate (S n) x.
Proof. reflexivity. Qed.

(** The loop of overload #3 over names that hold nothing: each name gets a
    new object of its own. *)
Lemma share_all_absent m a mo shared ps (ns : list string) : forall s ao,
  Store.holds s m a mo ao -> m <> a ->
  NoDup ns ->
  (forall x, In x ns -> truthy (readP x ao) = false) ->
  Lodash.sourceProps lodash shared s = Ok ps s ->
  (forall sh, shared = VRef sh -> sh <> a) ->
  forEach (Part001.shareProperties lodash shared) (map VStr ns) s =
  Ok tt (mkState (<[a := Store.wire (length (heap s)) ns ao]>
                    (heap s ++ replicate (length ns) (Lodash.assignAll ps (object []))))
                 (currentModel s) (events s)).
Proof.
  induction ns as [ | x r IH ]; intros s ao Hh Hma Hnd Habs Hsrc Hsh.
  - cbn [map forEach Store.wire length replicate]. unfold ret.
    rewrite app_nil_r. destruct Hh as [_ _ _ _ H5 _].
    by rewrite (list_insert_id _ _ _ H5), state_eta.
  - apply NoDup_cons in Hnd as [Hx Hnd].
    pose proof Hh as [H1 H2 H3 H4 H5 H6].
    assert (Ha : a < length (heap s)) by (by eapply lookup_lt_Some).
    cbn [map forEach].
    rewrite (bind_ok _ _ _ _ _
               (share_absent lodash s m a mo ao x shared ps Hh
                  (Habs x (or_introl eq_refl)) Hsrc)).
    set (n := length (heap s)).
    set (new := Lodash.assignAll ps (object [])).
    set (ao1 := writeP x (VRef n) ao).
    rewrite (IH _ ao1); cbn [heap currentModel events].
    + rewrite length_insert, length_app. cbn [length Store.wire].
      replace (length (heap s) + 1) with (S n) by (subst n; lia).
      rewrite insert_app_l by (rewrite length_insert, length_app; lia).
      rewrite list_insert_insert_eq.
      rewrite <- insert_app_l by (rewrite length_app; lia).
      rewrite <- app_assoc. reflexivity.
    + constructor; cbn [heap currentModel]; try done.
      * rewrite list_lookup_insert_ne by done. by apply lookup_app_l_Some.
      * apply list_lookup_insert_eq. rewrite length_app. lia.
    + done.
    + done.
    + intros y Hy. subst ao1. rewrite readP_writeP_ne.
      * apply Habs. by right.
      * intros ->. apply Hx. by apply list_elem_of_In.
    + apply (sourceProps_frame lodash _ _ _ _ _ _ Hsrc).
      intros sh o Hv Hl. rewrite list_lookup_insert_ne by (by apply not_eq_sym, Hsh).
      by apply lookup_app_l_Some.
    + done.
Qed.

End Copies.

(** X9.  With nothing to iterate over, [attr] and [require] leave the store
    alone (and do not even need one).  In either draft, [attr([], ...)] on
    an empty array (called with any number of arguments but three) and
    [attr({}, ...)] on an empty mapping return the builder and change
    nothing at all, whatever the current model; [require([])] only creates
    its [{required: true}] literal. *)
Theorem X9_attr_with_nothing_to_do
  (lodash : Lodash.Major) (b : Builder) (s : State) (l : loc) (o : Obj)
  (rest : list Value) :
  In b (drafts lodash) ->
  heap s !! l = Some o ->
  (kind o = KArray [] -> length rest <> 2 ->
   attr b (VRef l :: rest) s = Ok RThis s)
  /\ (kind o = KObject -> props o = [] ->
      attr b (VRef l :: rest) s = Ok RThis s)
  /\ (kind o = KArray [] ->
      require b (VRef l :: rest) s =
      Ok RThis (mkState (heap s ++ [object [("required", VBool true)]])
                        (currentModel s) (events s))).
Proof.
  intros Hin Hl.
  assert (Hempty : forall s1 : State,
            heap s1 !! l = Some o -> kind o = KArray [] ->
            length rest <> 2 ->
            Part001.attr lodash (VRef l :: rest) s1 = Ok RThis s1).
  { intros s1 Hl1 Hk Hlen. unfold Part001.attr. cbn [arg nth].
    rewrite (bind_ok _ _ _ _ _ (isArray_ok _ _ _ Hl1)), Hk.
    cbn [isArrayKind negb andb length].
    destruct (S (length rest) =? 3)%nat eqn:E;
      [ apply Nat.eqb_eq in E; lia | ].
    unfold bind at 1. unfold ret at 1. unfold Lodash.eachElement.
    unfold bind at 1. unfold bind at 1. rewrite (deref_ok _ _ _ Hl1), Hk.
    reflexivity. }
  split; [ | split ].
  - intros Hk Hlen.
    destruct Hin as [<- | [<- | []]]; cbn [attr part001 sailsModelBuilder].
    + by apply Hempty.
    + rewrite attr_same_arity; [ by apply Hempty | ].
      cbn [length]. apply Nat.eqb_neq. lia.
  - intros Hk Hp.
    assert (Hb : attr b (VRef l :: rest) s = Part001.attr lodash (VRef l :: rest) s).
    { destruct Hin as [<- | [<- | []]]; [ reflexivity | ].
      apply attr_same_mapping; [ | reflexivity ].
      cbn [arg nth]. by rewrite (isArray_ok _ _ _ Hl), Hk. }
    rewrite Hb, (attr_mapping_loop lodash s l o rest Hl Hk).
    + by rewrite Hp.
    + intros n. unfold readP. by rewrite Hp.
  - intros Hk.
    assert (Hb : require b (VRef l :: rest) s
                 = Part001.require lodash (VRef l :: rest) s).
    { destruct Hin as [<- | [<- | []]]; [ reflexivity | apply require_same ]. }
    rewrite Hb. unfold Part001.require. cbn [length Nat.eqb arg nth].
    unfold bind at 1. unfold bind at 1.
    rewrite (isArray_ok _ _ _ Hl), Hk. cbn [isArrayKind]. unfold ret at 1.
    unfold bind at 1. unfold alloc at 1.
    unfold bind at 1. unfold Part001.attr. cbn [arg nth length Nat.eqb].
    unfold bind at 1.
    erewrite isArray_ok; [ | cbn [heap]; apply lookup_app_l_Some, Hl ].
    rewrite Hk. cbn [isArrayKind negb andb].
    unfold bind at 1. unfold ret at 1. unfold Lodash.eachElement.
    unfold bind at 1. unfold bind at 1.
    erewrite deref_ok; [ | cbn [heap]; apply lookup_app_l_Some, Hl ].
    rewrite Hk. reflexivity.
Qed.

Lemma X9_witness :
  SailsModelBuilder.attr Lodash.Lodash3 [VRef 0; VStr "ignored"]
    (Drafts.blank [array []])
  = Ok RThis (Drafts.blank [array []]).
Proof.
  destruct (X9_attr_with_nothing_to_do Lodash.Lodash3 (sailsModelBuilder Lodash.Lodash3)
              (Drafts.blank [array []]) 0 (array []) [VStr "ignored"])
    as [H _].
  - right. left. reflexivity.
  - reflexivity.
  - apply H; [ reflexivity | discriminate ].
Defined.



Section Marked.
Context (lodash : Lodash.Major) (shared : Value) (ps : list (string * Value)).
Context (m a : loc) (mo ao0 : Obj) (h0 : Heap).

Local Abbreviation reached := (Marking.reached lodash shared ps m a mo ao0 h0).

Lemma assignAll_has k v o :
  getP k (rev ps) = Some v -> getP k (props (Lodash.assignAll ps o)) = Some v.
Proof. intros H. by rewrite getP_assignAll, H. Qed.

Lemma assignAll_keeps k o :
  getP k (rev ps) = None ->
  getP k (props (Lodash.assignAll ps o)) = getP k (props o).
Proof. intros H. by rewrite getP_assignAll, H. Qed.

(** One round of the loop. *)
Lemma share_reaches done s ao x :
  reached done s ao ->
  exists s' ao',
    Part001.shareProperties lodash shared (VStr x) s = Ok tt s'
    /\ reached (x :: done) s' ao'
    /\ currentModel s' = currentModel s /\ events s' = events s.
Proof.
  intros [Hh Ht Hsrc Hap Hgrow Hfr Hkept Hoth Hdone].
  pose proof (tidy_distinct _ _ _ _ _ Hh Ht) as Hma.
  pose proof Hh as [H1 H2 H3 H4 H5 H6].
  assert (Hm : m < length (heap s)) by (by eapply lookup_lt_Some).
  assert (Ha : a < length (heap s)) by (by eapply lookup_lt_Some).
  assert (Hcases : truthy (readP x ao) = false \/
            exists d dobj, readP x ao = VRef d /\ d <> m /\ d <> a /\
                           heap s !! d = Some dobj /\ isArrayKind (kind dobj) = false).
  { unfold readP. destruct (getP x (props ao)) as [ v | ] eqn:E; [ | by left ].
    destruct (Ht x v E) as [ | (l & o & -> & ? & ? & ? & ?) ]; [ by left | ].
    right. by exists l, o. }
  destruct Hcases as [ Hfalsy | (d & dobj & Hstored & Hdm & Hda & Hd & Hdk) ].
  - (* nothing stored under [x]: a new object *)
    set (n := length (heap s)).
    set (new := Lodash.assignAll ps (object [])).
    set (ao' := writeP x (VRef n) ao).
    set (h' := <[a := ao']> (heap s ++ [new])).
    exists (mkState h' (currentModel s) (events s)), ao'.
    split; [ apply (share_absent lodash s m a mo ao x shared ps Hh Hfalsy Hsrc) | ].
    split; [ | done ].
    assert (Hold : forall l o, l <> a -> heap s !! l = Some o -> h' !! l = Some o).
    { intros l o Hl Hlo. subst h'. rewrite list_lookup_insert_ne by done.
      by apply lookup_app_l_Some. }
    assert (Hnew : h' !! n = Some new).
    { subst h'. rewrite list_lookup_insert_ne by (subst n; lia).
      by apply list_lookup_middle. }
    assert (Hread : forall y, y <> x -> readP y ao' = readP y ao).
    { intros y Hy. subst ao'. by apply readP_writeP_ne, not_eq_sym. }
    constructor; cbn [heap currentModel].
    + constructor; cbn [heap currentModel]; auto.
      subst h'. apply list_lookup_insert_eq. rewrite length_app. lia.
    + intros y v. subst ao'. cbn [writeP props]. rewrite getP_setP.
      destruct (x =? y)%string.
      * intros [= <-]. right. exists n, new.
        split; [ done | split; [ subst n; lia | split; [ subst n; lia | ] ] ].
        split; [ done | subst new; by rewrite kind_assignAll ].
      * intros Hy. destruct (Ht y v Hy) as [ | (l & o & -> & ? & ? & Hl & ?) ];
          [ by left | ].
        right. exists l, o. auto 10.
    + apply (sourceProps_frame lodash _ _ _ _ _ _ Hsrc).
      intros sh o -> Hl. destruct (Hap sh eq_refl) as (Hsa & _ & _).
      by apply Hold.
    + intros sh Hsh. destruct (Hap sh Hsh) as (Hsa & Hlt & Hun).
      split; [ done | split; [ done | ] ].
      intros y. subst ao'. cbn [writeP props]. rewrite getP_setP.
      destruct (x =? y)%string; [ | apply Hun ].
      intros [= E]. subst n. lia.
    + subst h'. rewrite length_insert, length_app. lia.
    + intros l o0 Hl Hl0. destruct (Hfr l o0 Hl Hl0) as (o & Ho & Hk & Hp).
      exists o. auto.
    + intros y Hy. rewrite <- (Hkept y Hy). apply Hread.
      intros ->. rewrite (Hkept x Hy), Hy in Hfalsy. discriminate.
    + intros y Hy. rewrite <- (Hoth y (fun H => Hy (or_intror H))).
      apply Hread. intros ->. apply Hy. by left.
    + intros y [ <- | Hy ].
      * exists n, new. split; [ subst ao'; apply readP_writeP_eq | ].
        split; [ done | ]. intros k v Hkv. subst new. by apply assignAll_has.
      * destruct (Hdone y Hy) as (d & o & Hr & Hd & Hp).
        assert (Hyx : y <> x).
        { intros ->. rewrite Hr in Hfalsy. discriminate. }
        exists d, o. rewrite (Hread y Hyx). split; [ done | split; [ | done ] ].
        apply Hold; [ | done ].
        destruct (Ht y (VRef d) (readP_ref_getP _ _ _ Hr))
          as [ Hbad | (l & o' & [= <-] & _ & Hne & _) ]; [ discriminate | done ].
  - (* [x] holds a descriptor: it is extended in place *)
    set (dobj' := Lodash.assignAll ps dobj).
    set (h' := <[d := dobj']> (heap s)).
    exists (mkState h' (currentModel s) (events s)), ao.
    split; [ apply (share_present lodash s m a mo ao x shared ps d dobj
                      Hh Hstored Hdm Hda Hd Hdk Hsrc) | ].
    split; [ | done ].
    assert (Hd' : h' !! d = Some dobj').
    { subst h'. apply list_lookup_insert_eq. by eapply lookup_lt_Some. }
    assert (Hold : forall l o, l <> d -> heap s !! l = Some o -> h' !! l = Some o).
    { intros l o Hl Hlo. subst h'. by rewrite list_lookup_insert_ne by done. }
    assert (Hany : forall l o, heap s !! l = Some o ->
              exists o', h' !! l = Some o' /\ kind o' = kind o /\
                         (forall k v, getP k (rev ps) = Some v ->
                                      getP k (props o) = Some v ->
                                      getP k (props o') = Some v) /\
                         (forall k, getP k (rev ps) = None ->
                                    getP k (props o') = getP k (props o))).
    { intros l o Hlo. destruct (decide (l = d)) as [ -> | Hne ].
      - rewrite Hd in Hlo. injection Hlo as <-. exists dobj'.
        split; [ done | split; [ subst dobj'; apply kind_assignAll | split ] ].
        + intros k v Hkv _. subst dobj'. by apply assignAll_has.
        + intros k Hk. subst dobj'. by apply assignAll_keeps.
      - exists o. auto. }
    constructor; cbn [heap currentModel].
    + constructor; cbn [heap currentModel]; auto.
    + intros y v Hy. destruct (Ht y v Hy) as [ | (l & o & -> & ? & ? & Hl & Hk) ];
        [ by left | ].
      right. destruct (Hany l o Hl) as (o' & Ho' & Hk' & _).
      exists l, o'. split; [ done | split; [ done | split; [ done | ] ] ].
      split; [ done | congruence ].
    + apply (sourceProps_frame lodash _ _ _ _ _ _ Hsrc).
      intros sh o -> Hl. destruct (Hap sh eq_refl) as (_ & _ & Hun).
      apply Hold; [ | done ].
      intros ->. by apply (Hun x), readP_ref_getP.
    + done.
    + subst h'. by rewrite length_insert.
    + intros l o0 Hl Hl0. destruct (Hfr l o0 Hl Hl0) as (o & Ho & Hk & Hp).
      destruct (Hany l o Ho) as (o' & Ho' & Hk' & _ & Hp').
      exists o'. split; [ done | split; [ congruence | ] ].
      intros k Hkn. by rewrite (Hp' k Hkn), (Hp k Hkn).
    + done.
    + intros y Hy. apply Hoth. intros H. apply Hy. by right.
    + intros y [ <- | Hy ].
      * exists d, dobj'. split; [ done | split; [ done | ] ].
        intros k v Hkv. subst dobj'. by apply assignAll_has.
      * destruct (Hdone y Hy) as (d1 & o & Hr & Hd1 & Hp).
        destruct (Hany d1 o Hd1) as (o' & Ho' & _ & Hp' & _).
        exists d1, o'. split; [ done | split; [ done | ] ].
        intros k v Hkv. apply (Hp' k v Hkv). by apply Hp.
Qed.

Lemma share_loop_reaches (ns : list string) : forall done s ao,
  reached done s ao ->
  exists s' ao',
    forEach (Part001.shareProperties lodash shared) (map VStr ns) s = Ok tt s'
    /\ reached (rev ns ++ done) s' ao'
    /\ currentModel s' = currentModel s /\ events s' = events s.
Proof.
  induction ns as [ | x ns IH ]; intros done s ao Hr.
  - exists s, ao. by split.
  - destruct (share_reaches done s ao x Hr) as (s1 & ao1 & Hrun & Hr1 & Hc1 & He1).
    destruct (IH (x :: done) s1 ao1 Hr1) as (s2 & ao2 & Hrun2 & Hr2 & Hc2 & He2).
    exists s2, ao2. cbn [map forEach rev]. rewrite <- app_assoc.
    split; [ by rewrite (bind_ok _ _ _ _ _ Hrun) | ].
    split; [ done | split; congruence ].
Qed.

(** Allocation keeps what the loop has reached. *)
Lemma reached_alloc done s ao extra :
  reached done s ao ->
  reached done (mkState (heap s ++ extra) (currentModel s) (events s)) ao.
Proof.
  intros [Hh Ht Hsrc Hap Hgrow Hfr Hkept Hoth Hdone].
  pose proof Hh as [H1 H2 H3 H4 H5 H6].
  constructor; cbn [heap currentModel]; try done.
  - constructor; cbn [heap currentModel]; auto using lookup_app_l_Some.
  - intros y v Hy. destruct (Ht y v Hy) as [ | (l & o & -> & ? & ? & Hl & Hk) ];
      [ by left | ].
    right. exists l, o. auto 10 using lookup_app_l_Some.
  - apply (sourceProps_frame lodash _ _ _ _ _ _ Hsrc).
    intros sh o _ Hl. by apply lookup_app_l_Some.
  - rewrite length_app. lia.
  - intros l o0 Hl Hl0. destruct (Hfr l o0 Hl Hl0) as (o & Ho & Hk & Hp).
    exists o. auto using lookup_app_l_Some.
  - intros x Hx. destruct (Hdone x Hx) as (d & o & Hr & Hd & Hp).
    exists d, o. auto using lookup_app_l_Some.
Qed.

(** Overload #3 on one name or on an array of names. *)
Lemma attr_names_reaches s ao namesArg ns :
  reached [] s ao ->
  Store.names (heap s) namesArg = Some ns ->
  exists s' ao',
    Part001.attr lodash [namesArg; shared] s = Ok RThis s'
    /\ reached (rev ns) s' ao'
    /\ currentModel s' = currentModel s /\ events s' = events s.
Proof.
  intros Hr Hnames. unfold Part001.attr. cbn [arg nth length Nat.eqb].
  destruct namesArg as [ | | | | x | l ]; try discriminate Hnames.
  - injection Hnames as <-.
    cbn [Lodash.isArray Lodash.isObject]. unfold bind at 1. unfold ret at 1.
    cbn [negb andb]. unfold bind at 1. unfold alloc at 1.
    destruct (share_loop_reaches [x] [] _ ao (reached_alloc [] s ao [array [VStr x]] Hr))
      as (s' & ao' & Hrun & Hr' & Hc & He).
    exists s', ao'. rewrite app_nil_r in Hr'.
    split; [ | by split ].
    unfold Lodash.eachElement. unfold bind at 1. unfold bind at 1.
    erewrite deref_ok; [ | cbn [heap]; by apply list_lookup_middle ].
    cbn [kind array]. cbn [map] in Hrun. rewrite Hrun. reflexivity.
  - cbn [Store.names] in Hnames.
    destruct (heap s !! l) as [ o | ] eqn:Hl; [ | discriminate ].
    destruct (kind o) as [ | elems | ] eqn:Hko; try discriminate.
    apply strings_map in Hnames. subst elems.
    rewrite (bind_ok _ _ _ _ _ (isArray_ok _ _ _ Hl)). rewrite Hko.
    cbn [isArrayKind negb andb]. unfold bind at 1. unfold ret at 1.
    destruct (share_loop_reaches ns [] s ao Hr) as (s' & ao' & Hrun & Hr' & Hc & He).
    exists s', ao'. rewrite app_nil_r in Hr'.
    split; [ | by split ].
    unfold Lodash.eachElement. unfold bind at 1. unfold bind at 1.
    rewrite (deref_ok _ _ _ Hl), Hko, Hrun. reflexivity.
Qed.

End Marked.

(** The loop starts from any tidy store whose attributes do not refer to
    the source of the merge. *)
Lemma reached_start lodash shared ps s m a mo ao :
  Store.holds s m a mo ao -> Store.tidy (heap s) m a ao ->
  Lodash.sourceProps lodash shared s = Ok ps s ->
  (forall sh, shared = VRef sh -> sh <> a /\ forall y, readP y ao <> VRef sh) ->
  Marking.reached lodash shared ps m a mo ao (heap s) [] s ao.
Proof.
  intros Hh Ht Hsrc Hap. constructor; try done.
  - intros sh ->. destruct (Hap sh eq_refl) as (Hsa & Hun).
    split; [ done | split ].
    + unfold Lodash.sourceProps, bind, deref in Hsrc.
      destruct (heap s !! sh) eqn:E; [ by eapply lookup_lt_Some | discriminate ].
    + intros y Hy. apply (Hun y). unfold readP. by rewrite Hy.
  - intros l o0 _ Hl. exists o0. auto.
Qed.

Lemma holds_grow s m a mo ao extra :
  Store.holds s m a mo ao ->
  Store.holds (mkState (heap s ++ extra) (currentModel s) (events s)) m a mo ao.
Proof.
  intros [H1 H2 H3 H4 H5 H6].
  constructor; cbn [heap currentModel]; auto using lookup_app_l_Some.
Qed.

Lemma tidy_grow (h : Heap) m a ao extra :
  Store.tidy h m a ao -> Store.tidy (h ++ extra) m a ao.
Proof.
  intros Ht x v Hx. destruct (Ht x v Hx) as [ | (l & o & -> & ? & ? & Hl & ?) ];
    [ by left | ].
  right. exists l, o. auto 10 using lookup_app_l_Some.
Qed.

(** The names [require] hands to [attr]: the keys of the mapping, the array
    it was given, or a new array of its arguments. *)
Lemma require_names lodash s m a mo ao arguments ns :
  Store.holds s m a mo ao ->
  Store.required (heap s) ao arguments = Some ns ->
  exists extra namesArg,
    (if (length arguments =? 0)%nat
     then workingModel <- readModel ;;
          attributes <- getProp workingModel "attributes" ;;
          names <- Lodash.keys lodash attributes ;;
          alloc (array (map VStr names))
     else isArr <- Lodash.isArray (arg 0 arguments) ;;
          if isArr then ret (arg 0 arguments) else alloc (array arguments)) s
    = Ok namesArg (mkState (heap s ++ extra) (currentModel s) (events s))
    /\ Store.names (heap s ++ extra) namesArg = Some ns.
Proof.
  intros Hh Hreq. pose proof Hh as [H1 H2 H3 H4 H5 H6].
  destruct arguments as [ | v rest ].
  - cbn [length Nat.eqb]. cbn [Store.required] in Hreq. injection Hreq as <-.
    eexists _, _. split.
    + unfold bind at 1. unfold readModel at 1. rewrite H1.
      unfold bind at 1. rewrite (getProp_ok _ _ _ _ H2 H3), H4.
      unfold bind at 1. unfold Lodash.keys. unfold bind at 1.
      rewrite (sourceProps_ok lodash _ _ _ H5 H6). unfold ret at 1.
      unfold alloc. rewrite <- H1. reflexivity.
    + cbn [Store.names]. rewrite list_lookup_middle by done.
      cbn [kind array]. by rewrite strings_of_map.
  - cbn [length Nat.eqb arg nth].
    destruct v as [ | | | | x | l ]; try discriminate Hreq.
    + cbn [Lodash.isArray]. unfold bind at 1. unfold ret at 1.
      eexists _, _. split; [ reflexivity | ].
      cbn [Store.names]. rewrite list_lookup_middle by done.
      cbn [kind array]. by cbn [Store.required] in Hreq.
    + cbn [Store.required] in Hreq. pose proof Hreq as Hreq'.
      cbn [Store.names] in Hreq'.
      destruct (heap s !! l) as [ o | ] eqn:Hl; [ | discriminate ].
      destruct (kind o) as [ | elems | ] eqn:Hko; try discriminate.
      rewrite (bind_ok _ _ _ _ _ (isArray_ok _ _ _ Hl)), Hko. cbn [isArrayKind].
      exists [], (VRef l). rewrite app_nil_r. split; [ by destruct s | done ].
Qed.





Lemma bind_assoc {A B C} (m : M A) (f : A -> M B) (g : B -> M C) s :
  bind (bind m f) g s = bind m (fun x => bind (f x) g) s.
Proof. unfold bind. by destruct (m s). Qed.

Ltac bind_step :=
  etransitivity; [ apply bind_assoc | ];
  symmetry; etransitivity; [ apply bind_assoc | ]; symmetry;
  apply bind_ext; intros ? ?.

Lemma attr_three_as_two_calls lodash name key value s :
  SailsModelBuilder.attr lodash [VStr name; key; value] s
  = (Part001.attr lodash [VStr name; key; value] ;;
     Part001.attr lodash [VStr name; key]) s.
Proof.
  unfold SailsModelBuilder.attr, Part001.attr.
  cbn [arg nth length Nat.eqb Lodash.isArray Lodash.isObject].
  unfold bind at 1. unfold ret at 1. cbn [negb andb].
  symmetry. rewrite bind_assoc. unfold bind at 1. unfold ret at 1. cbn [negb andb].
  symmetry.
  do 7 bind_step.
  symmetry. etransitivity; [ apply bind_assoc | ]. symmetry.
  apply bind_ext. intros [] s6. reflexivity.
Qed.

Lemma holds_insert_other s m a mo ao d o :
  Store.holds s m a mo ao -> d <> m -> d <> a ->
  Store.holds (mkState (<[d := o]> (heap s)) (currentModel s) (events s)) m a mo ao.
Proof.
  intros [H1 H2 H3 H4 H5 H6] Hdm Hda.
  constructor; cbn [heap currentModel]; try done.
  - by rewrite list_lookup_insert_ne.
  - by rewrite list_lookup_insert_ne.
Qed.

Lemma holds_insert_store s m a mo ao ao' :
  Store.holds s m a mo ao -> m <> a -> isArrayKind (kind ao') = false ->
  Store.holds (mkState (<[a := ao']> (heap s)) (currentModel s) (events s)) m a mo ao'.
Proof.
  intros [H1 H2 H3 H4 H5 H6] Hma Hk.
  constructor; cbn [heap currentModel]; try done.
  - by rewrite list_lookup_insert_ne.
  - apply list_lookup_insert_eq. by eapply lookup_lt_Some.
Qed.

(** Overload #3 on one name that holds a descriptor: an array for the name
    is made, and the descriptor receives the properties. *)
Lemma attr_one_name_present lodash s m a mo ao name shared ps d dobj :
  Store.holds s m a mo ao ->
  readP name ao = VRef d -> d <> m -> d <> a ->
  heap s !! d = Some dobj -> isArrayKind (kind dobj) = false ->
  Lodash.sourceProps lodash shared s = Ok ps s ->
  Part001.attr lodash [VStr name; shared] s =
  Ok RThis (mkState (<[d := Lodash.assignAll ps dobj]> (heap s ++ [array [VStr name]]))
                    (currentModel s) (events s)).
Proof.
  intros Hh Hstored Hdm Hda Hd Hdk Hsrc.
  unfold Part001.attr. cbn [arg nth length Nat.eqb Lodash.isArray Lodash.isObject].
  unfold bind at 1. unfold ret at 1. cbn [negb andb].
  unfold bind at 1. unfold alloc at 1.
  unfold bind at 1. unfold Lodash.eachElement. unfold bind at 1.
  erewrite deref_ok; [ | cbn [heap]; by apply list_lookup_middle ].
  cbn [kind array forEach]. unfold bind at 1.
  erewrite (share_present lodash _ m a mo ao name shared ps d dobj);
    [ reflexivity | by apply holds_grow | done | done | done
    | cbn [heap]; by apply lookup_app_l_Some | done | ].
  apply (sourceProps_frame lodash _ _ _ _ _ _ Hsrc).
  intros l o _ Hl. by apply lookup_app_l_Some.
Qed.

(** X13.  The call with three arguments of sails-model-builder.js is two
    calls of part_001.  For every state, name, second and third argument,
    [attr(name, key, value)] of sails-model-builder.js does what part_001's
    [attr(name, key, value)] followed by part_001's [attr(name, key)] does:
    the same result, the same state, the same error. *)
Theorem X13_three_arguments_are_two_calls
  (lodash : Lodash.Major) (name : string) (key value : Value) (s : State) :
  SailsModelBuilder.attr lodash [VStr name; key; value] s
  = (Part001.attr lodash [VStr name; key; value] ;;
     Part001.attr lodash [VStr name; key]) s.
Proof. apply attr_three_as_two_calls. Qed.



Lemma getP_filter_keys (p : string -> bool) k (l : list (string * Value)) :
  getP k (List.filter (fun kv => p (fst kv)) l) = if p k then getP k l else None.
Proof.
  induction l as [ | [k' v] r IH ]; cbn [List.filter getP fst].
  - by destruct (p k).
  - destruct (String.eqb_spec k' k) as [ -> | Hne ].
    + destruct (p k) eqn:E; cbn [getP]; [ by rewrite String.eqb_refl | ].
      exact IH.
    + destruct (p k'); cbn [getP]; [ | exact IH ].
      destruct (String.eqb_spec k' k); [ done | exact IH ].
Qed.

Lemma contains_In (l : list string) key : Wiring.contains l key = true <-> In key l.
Proof.
  unfold Wiring.contains. rewrite existsb_exists. split.
  - intros (x & Hx & E). apply String.eqb_eq in E. by subst.
  - intros H. exists key. split; [ done | apply String.eqb_refl ].
Qed.

Lemma getP_picked whitelist k (o : Obj) :
  getP k (rev (props (Wiring.pick o (fun value key => Wiring.contains whitelist key))))
  = if Wiring.contains whitelist k then getP k (rev (props o)) else None.
Proof.
  unfold Wiring.pick. cbn [object props].
  rewrite <- List.filter_rev.
  apply (getP_filter_keys (Wiring.contains whitelist)).
Qed.

(** X15.  What the builder takes from the event manager.  For every
    builder object and every event manager, in both drafts:
    - a member of the event manager whose name is "on", "off", "trigger" or
      a lifecycle name is a member of the builder, with the same value;
    - every other property of the builder is what it was: no other member
      of the event manager is taken (in sails-model-builder.js,
      "declareEvent" apart, which is the manager's "declare");
    - in particular the builder's own methods are not replaced. *)
Theorem X15_builder_takes_the_listed_members (modelBuilder eventManager : Obj) :
  let exposed := Wiring.expose modelBuilder eventManager in
  let exposedSails := Wiring.exposeSails modelBuilder eventManager in
  (forall k v, In k Wiring.mayordomoEvents ->
     getP k (rev (props eventManager)) = Some v ->
     readP k exposed = v /\ readP k exposedSails = v)
  /\ (forall k, ~ In k Wiring.mayordomoEvents ->
        readP k exposed = readP k modelBuilder
        /\ (k <> "declareEvent" -> readP k exposedSails = readP k modelBuilder))
  /\ readP "declareEvent" exposedSails = readP "declare" eventManager
  /\ (forall k, In k Wiring.methods -> readP k exposed = readP k modelBuilder)
  /\ (forall k, In k Wiring.methodsSails ->
        readP k exposedSails = readP k modelBuilder)
  /\ kind exposed = kind modelBuilder /\ kind exposedSails = kind modelBuilder.
Proof.
  intros exposed exposedSails.
  assert (Hin : forall k v, In k Wiring.mayordomoEvents ->
            getP k (rev (props eventManager)) = Some v ->
            readP k exposed = v /\ readP k exposedSails = v).
  { intros k v Hk Hv.
    assert (E : readP k exposed = v).
    { unfold readP. subst exposed. unfold Wiring.expose.
      rewrite getP_assignAll, getP_picked.
      rewrite (proj2 (contains_In _ _) Hk). by rewrite Hv. }
    split; [ done | ].
    subst exposedSails. unfold Wiring.exposeSails.
    rewrite readP_writeP_ne.
    - exact E.
    - intros <-. cbn in Hk. intuition discriminate. }
  assert (Hout : forall k, ~ In k Wiring.mayordomoEvents ->
            readP k exposed = readP k modelBuilder
            /\ (k <> "declareEvent" -> readP k exposedSails = readP k modelBuilder)).
  { intros k Hk.
    assert (E : readP k exposed = readP k modelBuilder).
    { unfold readP. subst exposed. unfold Wiring.expose.
      rewrite getP_assignAll, getP_picked.
      destruct (Wiring.contains Wiring.mayordomoEvents k) eqn:C; [ | done ].
      apply contains_In in C. contradiction. }
    split; [ done | ].
    intros Hd. subst exposedSails. unfold Wiring.exposeSails.
    rewrite readP_writeP_ne by (by apply not_eq_sym). exact E. }
  split; [ exact Hin | split; [ exact Hout | split; [ | split; [ | split ] ] ] ].
  - subst exposedSails. unfold Wiring.exposeSails. apply readP_writeP_eq.
  - intros k Hk. apply Hout. cbn in Hk |- *. intuition (subst; discriminate).
  - intros k Hk. apply Hout.
    + cbn in Hk |- *. intuition (subst; discriminate).
    + cbn in Hk. intuition (subst; discriminate).
  - subst exposed exposedSails. unfold Wiring.exposeSails, Wiring.expose.
    cbn [writeP kind]. by rewrite !kind_assignAll.
Qed.
